(** * importanize: the import parser (importanize/parser.py)

    A shallow embedding of the three stages of [importanize/parser.py]:

    - the line grouper      [find_imports_from_lines],
    - the tokenizer         [tokenize_import_lines],
    - the statement parser  [parse_import_statement] and [parse_statements],

    together with the Python primitives they are written with (string
    methods, list indexing, [re.split], generators and exceptions). *)

From Stdlib Require Import String Ascii List ZArith Lia Bool Arith Permutation.
From Equations Require Import Equations.
Import ListNotations.

Open Scope string_scope.
Open Scope list_scope.

(** ** Python exceptions and results *)

Module Py.

(** The exceptions the parser can run into.  [RuntimeError] is what a
    generator turns an escaping [StopIteration] into (PEP 479). *)
Inductive exn : Type :=
| StopIteration
| ValueError
| IndexError
| RuntimeError.

(** A computation either returns a value or raises. *)
Inductive result (A : Type) : Type :=
| Ok (a : A)
| Raise (e : exn).
Arguments Ok {A} a.
Arguments Raise {A} e.

Definition bind {A B : Type} (m : result A) (k : A -> result B) : result B :=
  match m with
  | Ok a => k a
  | Raise e => Raise e
  end.

(** How a generator body comes to its end: by [return] (or by falling off
    its end), or by an exception that nothing in the body catches. *)
Inductive ending : Type :=
| Returned
| Raised (e : exn).

(** A generator run to exhaustion: the values it yielded, in order, and
    the way it ended. *)
Record gen (A : Type) : Type := Gen { yielded : list A; ended : ending }.
Arguments Gen {A} yielded ended.
Arguments yielded {A} g.
Arguments ended {A} g.

(** [yield a] followed by the rest of the run. *)
Definition yield {A : Type} (a : A) (g : gen A) : gen A :=
  Gen (a :: yielded g) (ended g).

(** What the consumer of a generator observes when the body ends.  A
    [StopIteration] that escapes the body of a generator is replaced by
    [RuntimeError] (PEP 479, the only behaviour since Python 3.7); every
    other exception is passed on as it is. *)
Definition generator_exit (e : ending) : ending :=
  match e with
  | Raised StopIteration => Raised RuntimeError
  | _ => e
  end.

Definition generator {A : Type} (body : gen A) : gen A :=
  Gen (yielded body) (generator_exit (ended body)).

(** *** Strings *)

(** [s.startswith(p)] *)
Definition startswith (s p : string) : bool := prefix p s.

(** [s.endswith(p)] *)
Definition endswith (s p : string) : bool :=
  (String.length p <=? String.length s)%nat
  && String.eqb
       (substring (String.length s - String.length p) (String.length p) s) p.

(** [s.find(sub, start)]: the lowest index at or after [start] where [sub]
    occurs in [s], and [-1] when there is none. *)
Definition find (s sub : string) (start : nat) : Z :=
  match index start sub s with
  | Some i => Z.of_nat i
  | None => (-1)%Z
  end.

(** [sub in s] *)
Definition contains (sub s : string) : bool := (0 <=? find s sub 0)%Z.

(** [s.split(sep)] for a non-empty [sep]: [skip] counts the characters of
    a separator that has just been recognised and still has to be passed
    over; [cur] is the piece being built. *)
Fixpoint split_aux (sep : string) (skip : nat) (cur s : string) : list string :=
  match s with
  | EmptyString => [cur]
  | String c s' =>
      match skip with
      | S k => split_aux sep k cur s'
      | O =>
          if prefix sep s
          then cur :: split_aux sep (String.length sep - 1) EmptyString s'
          else split_aux sep 0 (cur ++ String c EmptyString)%string s'
      end
  end.

Definition split (s sep : string) : list string := split_aux sep 0 EmptyString s.

(** [s.rsplit(c, 1)] for a one-character separator [c]: [None] when [c]
    does not occur, otherwise what stands before and after its last
    occurrence. *)
Fixpoint rsplit_last (c : ascii) (s : string) : option (string * string) :=
  match s with
  | EmptyString => None
  | String a s' =>
      match rsplit_last c s' with
      | Some (l, r) => Some (String a l, r)
      | None => if Ascii.eqb a c then Some (EmptyString, s') else None
      end
  end.

Definition rsplit1 (s : string) (c : ascii) : list string :=
  match rsplit_last c s with
  | Some (l, r) => [l; r]
  | None => [s]
  end.

(** *** Lists *)

(** [l[i]] with Python's negative indices. *)
Definition getitem {A : Type} (l : list A) (i : Z) : result A :=
  let n := Z.of_nat (List.length l) in
  let j := if (i <? 0)%Z then (i + n)%Z else i in
  if ((j <? 0) || (n <=? j))%Z then Raise IndexError
  else match nth_error l (Z.to_nat j) with
       | Some a => Ok a
       | None => Raise IndexError
       end.

(** [l.insert(i, x)]: a negative [i] counts from the end, and the position
    is clamped to the list. *)
Definition insert {A : Type} (l : list A) (i : Z) (x : A) : list A :=
  let n := Z.of_nat (List.length l) in
  let j := if (i <? 0)%Z then Z.max 0 (i + n) else Z.min i n in
  firstn (Z.to_nat j) l ++ x :: skipn (Z.to_nat j) l.

(** [l[1:]] *)
Definition from1 {A : Type} (l : list A) : list A := tl l.

End Py.

Import Py.

Notation "x <- m ;; k" := (bind m (fun x => k))
  (at level 61, m at next level, right associativity).

(** ** Collaborators of the parser *)

(** A token is a piece of text ([class Token(str)]). *)
Definition Token : Type := string.

(** [Token.is_comment] *)
Definition is_comment (t : Token) : bool := startswith t "#".

(** Modelled from the spec: [list_split] of importanize/utils.py, which is
    not part of the sources at hand.  The spec calls it a general-purpose
    utility that splits a sequence on a delimiting element: the sequence is
    partitioned at each occurrence of the delimiter and the delimiters
    themselves are removed.  A segment is produced at each delimiter; what
    remains after the last delimiter is produced when it is not empty. *)
Fixpoint list_split_from (segment : list Token) (l : list Token) (split : Token)
  : list (list Token) :=
  match l with
  | [] => match segment with
          | [] => []
          | _ :: _ => [segment]
          end
  | i :: l' =>
      if String.eqb i split
      then segment :: list_split_from [] l' split
      else list_split_from (segment ++ [i]) l' split
  end.

Definition list_split (l : list Token) (split : Token) : list (list Token) :=
  list_split_from [] l split.

(** Modelled from the spec: [DOTS] of importanize/statements.py, which is
    not part of the sources at hand.  The spec describes a matcher that
    splits a stem into the longest run of leading dots and the remaining
    path, and that behaves as a no-op split when there are no dots. *)
Fixpoint leading_dots (s : string) : string * string :=
  match s with
  | String "." s' => let (d, r) := leading_dots s' in (String "." d, r)
  | _ => (EmptyString, s)
  end.

Definition DOTS_findall (s : string) : list (string * string) :=
  [leading_dots s].

(** Modelled from the spec: the record [ImportLeaf] of
    importanize/statements.py, which is not part of the sources at hand:
    the imported name, an optional alias and the attached comment tokens;
    an alias equal to the name is dropped. *)
Record ImportLeaf : Type := Leaf {
  leaf_name : string;
  leaf_as_name : option string;
  leaf_comments : list Token
}.

Definition mkImportLeaf (name : string) (comments : list Token) : ImportLeaf :=
  match split name " as " with
  | [n; a] => Leaf n (if String.eqb n a then None else Some a) comments
  | _ => Leaf name None comments
  end.

(** Modelled from the spec: the record [ImportStatement] of
    importanize/statements.py, which is not part of the sources at hand:
    the original line numbers, the stem, the leafs and the comment tokens
    attached to the statement itself.  (The keyword arguments that the
    parser hands through untouched are left out.) *)
Record ImportStatement : Type := Statement {
  line_numbers : list nat;
  stem : string;
  leafs : list ImportLeaf;
  comments : list Token
}.

(** ** The tokenizer *)

Definition newline : ascii := "010"%char.

(** A word that has been completed is kept unless it is empty
    ([filter(None, ...)] drops the empty pieces and the groups that did not
    take part in a match). *)
Definition flush (word : string) (rest : list string) : list string :=
  match word with
  | EmptyString => rest
  | String _ _ => word :: rest
  end.

(** The words of a line: [filter(None, re.split(pattern, line))], where
    the pattern has four alternatives: a run of spaces; one parenthesis;
    a comma or a backslash, captured; a [#] with everything that follows
    it on the line, captured.

    The pattern never matches the empty string, and its four alternatives
    start with different characters, so the split is a left to right scan:
    a space or a parenthesis ends the current word and is dropped; a comma
    or a backslash ends the current word and is kept as a word of its own
    (the first capturing group); a [#] ends the current word and starts a
    comment, which runs up to the next newline character or the end of the
    line (the second capturing group, [.] does not match a newline).
    [incomment] tells whether [word] is such a comment. *)
Fixpoint re_split_words (incomment : bool) (word : string) (line : string)
  : list string :=
  match line with
  | EmptyString => flush word []
  | String c line' =>
      if incomment then
        if Ascii.eqb c newline
        then flush word (re_split_words false (String c EmptyString) line')
        else re_split_words true (word ++ String c EmptyString)%string line'
      else if Ascii.eqb c " " then flush word (re_split_words false EmptyString line')
      else if Ascii.eqb c "(" || Ascii.eqb c ")"
      then flush word (re_split_words false EmptyString line')
      else if Ascii.eqb c "," || Ascii.eqb c "\"
      then flush word (String c EmptyString :: re_split_words false EmptyString line')
      else if Ascii.eqb c "#"
      then flush word (re_split_words true (String c EmptyString) line')
      else re_split_words false (word ++ String c EmptyString)%string line'
  end.

Definition words_of_line (line : string) : list string :=
  re_split_words false EmptyString line.

(** The loop over the words of one line (lines 115-125): [i] is the index
    that [enumerate] gives to the current word and [_tokens] the list built
    so far.  A comment whose predecessor is a comma is inserted before that
    comma. *)
Fixpoint reassociate (i : Z) (_tokens : list Token) (words : list string)
  : result (list Token) :=
  match words with
  | [] => Ok _tokens
  | word :: words' =>
      let token : Token := word in
      moved <-
        (if is_comment token then
           match _tokens with
           | [] => Ok false
           | _ :: _ =>
               t <- getitem _tokens (Z.max (i - 1) 0) ;;
               Ok (String.eqb t ",")
           end
         else Ok false) ;;
      reassociate (i + 1)
        (if (moved : bool) then insert _tokens (i - 1) token
         else _tokens ++ [token])
        words'
  end.

Definition line_tokens (line : string) : result (list Token) :=
  reassociate 0 [] (words_of_line line).

(** The loop over the lines (lines 111-127). *)
Fixpoint all_line_tokens (import_lines : list string) : result (list Token) :=
  match import_lines with
  | [] => Ok []
  | line :: rest =>
      _tokens <- line_tokens line ;;
      tokens <- all_line_tokens rest ;;
      Ok (_tokens ++ tokens)
  end.

(** [tokens[-1] += word] *)
Definition add_to_last (tokens : list Token) (word : Token) : result (list Token) :=
  last_token <- getitem tokens (-1) ;;
  Ok (removelast tokens ++ [(last_token ++ word)%string]).

(** The loop over the segments between backslashes (lines 132-134). *)
Fixpoint join_segments (tokens : list Token) (segments : list (list Token))
  : result (list Token) :=
  match segments with
  | [] => Ok tokens
  | segment :: segments' =>
      first <- getitem segment 0 ;;
      tokens' <- add_to_last tokens first ;;
      join_segments (tokens' ++ from1 segment) segments'
  end.

Definition tokenize_import_lines (import_lines : list string) : result (list Token) :=
  tokens <- all_line_tokens import_lines ;;
  join_segments [EmptyString] (list_split tokens "\").

(** ** The statement parser *)

(** [parse_import_statement(stem, line_numbers, comments=comments)] *)
Definition parse_import_statement
    (stem : string) (line_numbers : list nat) (comments : list Token)
  : result ImportStatement :=
  stem_leafs <-
    (if startswith stem "." then
       found <- getitem (DOTS_findall stem) 0 ;;
       let (stem, leafs_string) := (found : string * string) in
       (* handle ``import .foo.bar`` *)
       match rsplit1 leafs_string "." with
       | [before; after] =>
           Ok ((stem ++ before)%string, [mkImportLeaf after []])
       | _ => Ok (stem, [mkImportLeaf leafs_string []])
       end
     else
       (* handle ``import a.b as c`` *)
       match rsplit1 stem "." with
       | [before; after] =>
           if contains " as " stem
           then Ok (before, [mkImportLeaf after []])
           else Ok (stem, [])
       | _ => Ok (stem, [])
       end) ;;
  let (stem, leafs) := (stem_leafs : string * list ImportLeaf) in
  (* handle when ``as`` is present and is unnecessary *)
  stem <-
    (if contains " as " stem && (match leafs with [] => true | _ => false end)
     then
       match split stem " as " with
       | [name; as_name] => Ok (if String.eqb name as_name then name else stem)
       | _ => Raise ValueError
       end
     else Ok stem) ;;
  Ok (Statement line_numbers stem leafs comments).

(** A line group: the lines of one statement and their numbers. *)
Definition LineGroup : Type := list string * list nat.

(** [not_comment = lambda j: next(filter(lambda i: not i.is_comment, j))] *)
Definition not_comment (j : list Token) : result Token :=
  match filter (fun i => negb (is_comment i)) j with
  | [] => Raise StopIteration
  | t :: _ => Ok t
  end.

(** The statement of one segment between commas (lines 214-221). *)
Definition segment_statement (line_numbers : list nat) (_tokens : list Token)
  : result ImportStatement :=
  stem <- not_comment _tokens ;;
  parse_import_statement stem line_numbers (filter is_comment _tokens).

(** The loop of the [import] branch (lines 213-221): one statement is
    yielded for each segment between commas. *)
Fixpoint import_statements (segments : list (list Token)) (line_numbers : list nat)
  : gen ImportStatement :=
  match segments with
  | [] => Gen [] Returned
  | _tokens :: segments' =>
      match segment_statement line_numbers _tokens with
      | Ok statement => yield statement (import_statements segments' line_numbers)
      | Raise e => Gen [] (Raised e)
      end
  end.

(** The loop over the leafs of the [from] branch (lines 228-232). *)
Fixpoint parse_leafs (_leafs : list (list Token)) : result (list ImportLeaf) :=
  match _leafs with
  | [] => Ok []
  | leaf :: rest =>
      _leaf <- not_comment leaf ;;
      leafs <- parse_leafs rest ;;
      Ok (mkImportLeaf _leaf (filter is_comment leaf) :: leafs)
  end.

(** The [from] branch (lines 224-239).  Unpacking [list_split]'s segments
    into two names needs exactly two of them. *)
Definition from_statement (tokens : list Token) (line_numbers : list nat)
  : result ImportStatement :=
  match list_split (from1 tokens) "import" with
  | [stem; _leafs] =>
      stem <- not_comment stem ;;
      leafs <- parse_leafs (list_split _leafs ",") ;;
      Ok (Statement line_numbers stem leafs [])
  | _ => Raise ValueError
  end.

(** The body of the loop of [parse_statements] for one line group. *)
Definition parse_group (group : LineGroup) : gen ImportStatement :=
  let (import_lines, line_numbers) := group in
  match tokenize_import_lines import_lines with
  | Raise e => Gen [] (Raised e)
  | Ok tokens =>
      match getitem tokens 0 with
      | Raise e => Gen [] (Raised e)
      | Ok first =>
          if String.eqb first "import"
          then import_statements (list_split (from1 tokens) ",") line_numbers
          else match from_statement tokens line_numbers with
               | Ok statement => Gen [statement] Returned
               | Raise e => Gen [] (Raised e)
               end
      end
  end.

(** One run after the other: the second one starts when the first one
    has come to its end without an exception. *)
Definition and_then {A : Type} (g : gen A) (k : gen A) : gen A :=
  match ended g with
  | Returned => Gen (yielded g ++ yielded k) (ended k)
  | Raised e => g
  end.

(** The [for] loop of [parse_statements] over the groups that the iterable
    gives, and then the way the iterable itself ends: its exhaustion ends
    the loop, its exception passes through. *)
Fixpoint parse_groups (groups : list LineGroup) (last : ending) : gen ImportStatement :=
  match groups with
  | [] => Gen [] match last with
                 | Raised StopIteration => Returned
                 | _ => last
                 end
  | group :: groups' => and_then (parse_group group) (parse_groups groups' last)
  end.

Definition parse_statements (iterable : gen LineGroup) : gen ImportStatement :=
  generator (parse_groups (yielded iterable) (ended iterable)).

(** ** The line grouper *)

(** The enumerated iterator: what is still to be read, as pairs of a line
    number and a line. *)
Definition iterator : Type := list (nat * string).

Definition dquote : ascii := "034"%char.

(** The text of the triple quote. *)
Definition triple_quotes : string :=
  String dquote (String dquote (String dquote EmptyString)).

(** The test of line 67: the line has a triple quote and no second one
    after it. *)
Definition opens_comment_block (line : string) : bool :=
  let triple_quote := find line triple_quotes 0 in
  (0 <=? triple_quote)%Z
  && (find line triple_quotes (Z.to_nat (triple_quote + 3)) <? 0)%Z.

(** The test of lines 82-83. *)
Definition has_import (line : string) : bool :=
  startswith line "from " || startswith line "import ".

(** The loop of lines 69-74.  [inside_comment] is true when the loop is
    entered; [None] stands for the [return] of line 73, and otherwise the
    result is what is left of the iterator after the closing line. *)
Fixpoint skip_comment_block (inside_comment : bool) (it : iterator)
  : option iterator :=
  if inside_comment then
    match it with
    | [] => None
    | (line_number, line) :: it' =>
        skip_comment_block (negb (endswith line triple_quotes)) it'
    end
  else Some it.

(** The state of a group under construction: the current line, the numbers
    and the lines gathered so far, and what is left of the iterator. *)
Definition gathering : Type := string * list nat * list string * iterator.

(** The loop of lines 92-95: [next(iterator)] is not guarded, so that an
    exhausted iterator raises [StopIteration]. *)
Fixpoint until_closing_parenthesis
    (line : string) (line_numbers : list nat) (line_imports : list string)
    (it : iterator) {struct it} : result gathering :=
  if negb (contains ")" line) then
    match it with
    | [] => Raise StopIteration
    | (line_number, line) :: it' =>
        until_closing_parenthesis
          line (line_numbers ++ [line_number]) (line_imports ++ [line]) it'
    end
  else Ok (line, line_numbers, line_imports, it).

(** The loop of lines 100-103, not guarded either. *)
Fixpoint while_escaped
    (line : string) (line_numbers : list nat) (line_imports : list string)
    (it : iterator) {struct it} : result gathering :=
  if endswith line "\" then
    match it with
    | [] => Raise StopIteration
    | (line_number, line) :: it' =>
        while_escaped
          line (line_numbers ++ [line_number]) (line_imports ++ [line]) it'
    end
  else Ok (line, line_numbers, line_imports, it).

(** What one round of the [while True] loop comes to. *)
Inductive round : Type :=
| Stop (e : ending)
| Continue (it : iterator)
| Yield (group : LineGroup) (it : iterator).

(** Lines 81-105 for the line that has been read. *)
Definition gather (line_number : nat) (line : string) (it : iterator) : round :=
  (* if no imports found on line, ignore *)
  if negb (has_import line) then Continue it
  else
    match
      (g <- (if contains "(" line && negb (contains ")" line)
             then until_closing_parenthesis line [line_number] [line] it
             else Ok (line, [line_number], [line], it)) ;;
       let '(line, line_numbers, line_imports, it) := (g : gathering) in
       if endswith line "\"
       then while_escaped line line_numbers line_imports it
       else Ok g)
    with
    | Raise e => Stop (Raised e)
    | Ok (_, line_numbers, line_imports, it) =>
        Yield (line_imports, line_numbers) it
    end.

(** One round of the [while True] loop (lines 60-105). *)
Definition one_round (it : iterator) : round :=
  match it with
  | [] => Stop Returned
  | (line_number, line) :: it =>
      (* ignore comment blocks *)
      if opens_comment_block line then
        match skip_comment_block true it with
        | None => Stop Returned
        | Some [] => Stop Returned
        | Some ((line_number, line) :: it) => gather line_number line it
        end
      else gather line_number line it
  end.

(** A value together with the equation that says where it comes from. *)
Definition inspect {A : Type} (a : A) : {b : A | a = b} := exist _ a eq_refl.

(** The body of the generator: the rounds one after the other.  Every round
    that goes on has read at least one line. *)
Equations? find_imports_rounds (it : iterator) : gen LineGroup
  by wf (List.length it) lt :=
  find_imports_rounds it with inspect (one_round it) := {
    | exist _ (Stop e) _ => Gen [] e
    | exist _ (Continue it') _ => find_imports_rounds it'
    | exist _ (Yield group it') _ => yield group (find_imports_rounds it') }.
Proof.
  all: assert (Hskip : forall b i i',
          skip_comment_block b i = Some i' -> List.length i' <= List.length i)
    by (intros b i; revert b; induction i as [|[? ?] i IH]; intros [|] i' H;
        simpl in H; try discriminate; try (injection H as <-; simpl; lia);
        apply IH in H; simpl; lia).
  all: assert (Hparen : forall i l ns ls l' ns' ls' i',
          until_closing_parenthesis l ns ls i = Ok (l', ns', ls', i') ->
          List.length i' <= List.length i)
    by (induction i as [|[? ?] i IH]; intros l ns ls l' ns' ls' i' H;
        simpl in H; destruct (negb (contains ")" l)); try discriminate;
        try (injection H as <- <- <- <-; simpl; lia);
        apply IH in H; simpl; lia).
  all: assert (Hesc : forall i l ns ls l' ns' ls' i',
          while_escaped l ns ls i = Ok (l', ns', ls', i') ->
          List.length i' <= List.length i)
    by (induction i as [|[? ?] i IH]; intros l ns ls l' ns' ls' i' H;
        simpl in H; destruct (endswith l "\"); try discriminate;
        try (injection H as <- <- <- <-; simpl; lia);
        apply IH in H; simpl; lia).
  all: assert (Hgather : forall n l i,
          match gather n l i with
          | Stop _ => True
          | Continue i' | Yield _ i' => List.length i' <= List.length i
          end)
    by (intros n l i; unfold gather;
        destruct (negb (has_import l)); [simpl; lia|];
        destruct (contains "(" l && negb (contains ")" l)); simpl;
        [ destruct (until_closing_parenthesis l [n] [l] i)
            as [[[[l1 ns1] ls1] i1]|] eqn:E1; simpl; [|exact I];
          apply Hparen in E1;
          destruct (endswith l1 "\"); simpl; [|lia];
          destruct (while_escaped l1 ns1 ls1 i1)
            as [[[[l2 ns2] ls2] i2]|] eqn:E2; simpl; [|exact I];
          apply Hesc in E2; lia
        | destruct (endswith l "\"); simpl; [|lia];
          destruct (while_escaped l [n] [l] i)
            as [[[[l2 ns2] ls2] i2]|] eqn:E2; simpl; [|exact I];
          apply Hesc in E2; lia ]).
  all: destruct it as [|[n l] i]; simpl in e; [discriminate|];
    destruct (opens_comment_block l);
    [ destruct (skip_comment_block true i) as [[|[n1 l1] i1]|] eqn:E;
      try discriminate; apply Hskip in E;
      pose proof (Hgather n1 l1 i1) as G; rewrite e in G; simpl in *; lia
    | pose proof (Hgather n l i) as G; rewrite e in G; simpl in *; lia ].
Defined.

(** [find_imports_from_lines(iterator)]: the generator whose body is the
    [while True] loop. *)
Definition find_imports_from_lines (it : iterator) : gen LineGroup :=
  generator (find_imports_rounds it).

(** ** The artifacts of a file *)

Definition carriage_return : ascii := "013"%char.

(** The characters at which [str.splitlines] ends a line, among the
    characters below 256 (a text is taken as the sequence of its code
    points): line feed, vertical tab, form feed, carriage return, the file,
    group and record separators, and the next-line character. *)
Definition is_line_boundary (c : ascii) : bool :=
  Ascii.eqb c newline || Ascii.eqb c "011"%char || Ascii.eqb c "012"%char
  || Ascii.eqb c carriage_return
  || Ascii.eqb c "028"%char || Ascii.eqb c "029"%char || Ascii.eqb c "030"%char
  || Ascii.eqb c "133"%char.

(** [text.splitlines(True)]: the lines of a text, each with its line end; a
    carriage return followed by a line feed is one line end; [line] is the
    line being read.  There is no empty line after the last line end. *)
Fixpoint splitlines_from (line : string) (text : string) : list string :=
  match text with
  | EmptyString =>
      match line with
      | EmptyString => []
      | String _ _ => [line]
      end
  | String c text' =>
      if Ascii.eqb c carriage_return then
        match text' with
        | String c' text'' =>
            if Ascii.eqb c' newline
            then (line ++ String c (String c' EmptyString))%string
                 :: splitlines_from EmptyString text''
            else (line ++ String c EmptyString)%string
                 :: splitlines_from EmptyString text'
        | EmptyString => [(line ++ String c EmptyString)%string]
        end
      else if is_line_boundary c
      then (line ++ String c EmptyString)%string
           :: splitlines_from EmptyString text'
      else splitlines_from (line ++ String c EmptyString) text'
  end.

Definition splitlines_keepends (text : string) : list string :=
  splitlines_from EmptyString text.

(** [s[-2:]] *)
Definition last_two (s : string) : string :=
  substring (String.length s - 2) 2 s.

Definition LF : string := String newline EmptyString.
Definition CRLF : string := String carriage_return (String newline EmptyString).

(** [get_file_artifacts(path)], as a function of the text that [read(path)]
    returns ([read] is a collaborator that does the input): the dictionary
    with the one key [sep]. *)
Definition get_file_artifacts (content : string) : list (string * string) :=
  let lines := splitlines_keepends content in
  match lines with
  | first :: _ :: _ =>
      (* len(lines) > 1 *)
      if String.eqb (last_two first) CRLF
      then [("sep", CRLF)]
      else [("sep", LF)]
  | _ => [("sep", LF)]
  end.

(** ** Vocabulary of the properties *)

(** [c] occurs in [s]. *)
Fixpoint has_char (c : ascii) (s : string) : bool :=
  match s with
  | EmptyString => false
  | String a s' => Ascii.eqb a c || has_char c s'
  end.

(** [s] is made of dots only. *)
Fixpoint all_dots (s : string) : bool :=
  match s with
  | EmptyString => true
  | String a s' => Ascii.eqb a "." && all_dots s'
  end.

(** A character that ends a word: a blank, a parenthesis, a comma, a
    backslash or a [#]. *)
Definition is_special (c : ascii) : bool :=
  Ascii.eqb c " " || Ascii.eqb c "(" || Ascii.eqb c ")"
  || Ascii.eqb c "," || Ascii.eqb c "\" || Ascii.eqb c "#".

(** [s] has no character that ends a word. *)
Fixpoint plain (s : string) : bool :=
  match s with
  | EmptyString => true
  | String c s' => negb (is_special c) && plain s'
  end.

(** What a word of a line can be: a comment, a comma, a backslash, or a
    text without any character that ends a word; never the empty text. *)
Definition well_formed_word (w : string) : bool :=
  negb (String.eqb w EmptyString)
  && (is_comment w || String.eqb w "," || String.eqb w "\" || plain w).

(** The tokens of names with a comma between them. *)
Fixpoint comma_separated (names : list Token) : list Token :=
  match names with
  | [] => []
  | name :: rest =>
      match rest with
      | [] => [name]
      | _ :: _ => name :: "," :: comma_separated rest
      end
  end.

(** The text of names with a comma and a blank between them. *)
Fixpoint joined_names (names : list string) : string :=
  match names with
  | [] => EmptyString
  | name :: rest =>
      match rest with
      | [] => name
      | _ :: _ => (name ++ ", " ++ joined_names rest)%string
      end
  end.

(** A name as it stands in an import: not empty, and without any
    character that ends a word. *)
Definition is_name (s : string) : bool :=
  negb (String.eqb s EmptyString) && plain s.

(** [s] has no character that ends a line. *)
Fixpoint one_line (s : string) : bool :=
  match s with
  | EmptyString => true
  | String c s' => negb (is_line_boundary c) && one_line s'
  end.

(** * Properties *)

(** ** Python lists *)

Lemma getitem_nth {A : Type} (l : list A) (k : nat) (a : A) :
  nth_error l k = Some a -> getitem l (Z.of_nat k) = Ok a.
Proof.
  intros H. unfold getitem.
  assert (k < List.length l)%nat by (apply nth_error_Some; congruence).
  destruct (Z.ltb_spec (Z.of_nat k) 0); [lia|]. cbv beta iota zeta.
  destruct (Z.ltb_spec (Z.of_nat k) 0); [lia|].
  destruct (Z.leb_spec (Z.of_nat (List.length l)) (Z.of_nat k)); [lia|].
  simpl. rewrite Nat2Z.id, H. reflexivity.
Qed.

Lemma getitem_before_end {A : Type} (l : list A) (x : A) :
  getitem (l ++ [x]) (Z.max (Z.of_nat (List.length (l ++ [x])) - 1) 0) = Ok x.
Proof.
  rewrite length_app. simpl.
  replace (Z.max (Z.of_nat (List.length l + 1) - 1) 0)
    with (Z.of_nat (List.length l)) by lia.
  apply getitem_nth. rewrite nth_error_app2 by apply Nat.le_refl.
  rewrite Nat.sub_diag. reflexivity.
Qed.

Lemma getitem_minus_one {A : Type} (l : list A) (x : A) :
  getitem (l ++ [x]) (-1) = Ok x.
Proof.
  unfold getitem. cbv zeta. rewrite length_app.
  change (-1 <? 0)%Z with true. cbv iota.
  simpl List.length.
  destruct (Z.ltb_spec (-1 + Z.of_nat (List.length l + 1)) 0); [lia|].
  destruct (Z.leb_spec (Z.of_nat (List.length l + 1))
              (-1 + Z.of_nat (List.length l + 1))); [lia|].
  cbv [orb].
  replace (Z.to_nat (-1 + Z.of_nat (List.length l + 1)))
    with (List.length l) by lia.
  rewrite nth_error_app2 by apply Nat.le_refl.
  rewrite Nat.sub_diag. reflexivity.
Qed.

Lemma insert_before_end {A : Type} (l : list A) (x y : A) :
  insert (l ++ [x]) (Z.of_nat (List.length (l ++ [x])) - 1) y = l ++ [y; x].
Proof.
  unfold insert. rewrite length_app. simpl List.length.
  destruct (Z.ltb_spec (Z.of_nat (List.length l + 1) - 1) 0); [lia|].
  replace (Z.to_nat (Z.min (Z.of_nat (List.length l + 1) - 1)
                            (Z.of_nat (List.length l + 1))))
    with (List.length l + 0)%nat by lia.
  rewrite firstn_app_2, skipn_app.
  rewrite Nat.add_0_r, Nat.sub_diag, skipn_all. simpl.
  rewrite app_nil_r. reflexivity.
Qed.

Lemma removelast_snoc {A : Type} (l : list A) (x : A) :
  removelast (l ++ [x]) = l.
Proof. apply removelast_last. Qed.

Lemma add_to_last_snoc (l : list Token) (x w : Token) :
  add_to_last (l ++ [x]) w = Ok (l ++ [(x ++ w)%string]).
Proof.
  unfold add_to_last. rewrite getitem_minus_one. simpl.
  rewrite removelast_snoc. reflexivity.
Qed.

Lemma list_end_cases {A : Type} (l : list A) :
  l = [] \/ exists pre x, l = pre ++ [x].
Proof.
  destruct l as [|a l]; [left; reflexivity|right].
  destruct (exists_last (l := a :: l)) as [pre [x E]]; [discriminate|].
  exists pre, x. exact E.
Qed.

Lemma match_snoc {A B : Type} (pre : list A) (x : A) (empty full : B) :
  match pre ++ [x] with
  | [] => empty
  | _ :: _ => full
  end = full.
Proof. destruct pre; reflexivity. Qed.

(** ** Worked inputs of the tokenizer and the parser *)

Lemma comment_after_comma_is_spliced
    (before : list Token) (comment : Token) (words : list string) :
  is_comment comment = true ->
  reassociate (Z.of_nat (List.length (before ++ [","]))) (before ++ [","])
    (comment :: words)
  = reassociate (Z.of_nat (List.length (before ++ [comment; ","])))
      (before ++ [comment; ","]) words.
Proof.
  intros Hc. cbn [reassociate]. rewrite Hc, match_snoc.
  rewrite getitem_before_end. cbn [bind]. rewrite insert_before_end.
  f_equal. rewrite !length_app. simpl. lia.
Qed.

(** C3: in the loop over the words of a line, a comment that comes right
    after a comma is put before that comma.  So the group
    [from a import (b,  # keep] / [    c)] is tokenized with the comment
    token [# keep] before the comma, and it is parsed into one from-import
    statement whose leaf [b] carries the comment and whose leaf [c] carries
    none. *)
Theorem keep_comment_is_attached_to_leaf_b (line_numbers : list nat) :
  (forall (before : list Token) (comment : Token) (words : list string),
      is_comment comment = true ->
      reassociate (Z.of_nat (List.length (before ++ [","]))) (before ++ [","])
        (comment :: words)
      = reassociate (Z.of_nat (List.length (before ++ [comment; ","])))
          (before ++ [comment; ","]) words)
  /\ words_of_line "from a import (b,  # keep"
    = ["from"; "a"; "import"; "b"; ","; "# keep"]
  /\ line_tokens "from a import (b,  # keep"
    = Ok ["from"; "a"; "import"; "b"; "# keep"; ","]
  /\ tokenize_import_lines ["from a import (b,  # keep"; "    c)"]
    = Ok ["from"; "a"; "import"; "b"; "# keep"; ","; "c"]
  /\ parse_group (["from a import (b,  # keep"; "    c)"], line_numbers)
    = Gen [Statement line_numbers "a"
             [Leaf "b" None ["# keep"]; Leaf "c" None []] []]
          Returned.
Proof.
  split; [exact comment_after_comma_is_spliced|].
  repeat split; reflexivity.
Qed.

(** C4: the group [import os, sys  # comment] is parsed into two
    statements, for [os] and for [sys] in this order; the comment token is
    a statement-level comment of the [sys] statement, and no statement
    follows it. *)
Theorem trailing_comment_is_attached_to_sys (line_numbers : list nat) :
  tokenize_import_lines ["import os, sys  # comment"]
    = Ok ["import"; "os"; ","; "sys"; "# comment"]
  /\ parse_group (["import os, sys  # comment"], line_numbers)
    = Gen [Statement line_numbers "os" [] [];
           Statement line_numbers "sys" [] ["# comment"]]
          Returned.
Proof. split; reflexivity. Qed.

(** ** Python strings *)

Lemma prefix_append (p s : string) :
  prefix p s = true -> exists r, s = (p ++ r)%string.
Proof.
  revert s. induction p as [|a p IH]; intros s H.
  - exists s. reflexivity.
  - destruct s as [|b s]; simpl in H; [discriminate|].
    destruct (ascii_dec a b) as [<-|]; [|discriminate].
    destruct (IH _ H) as [r ->]. exists r. reflexivity.
Qed.

Lemma append_assoc (a b c : string) :
  ((a ++ b) ++ c = a ++ (b ++ c))%string.
Proof. induction a as [|x a IH]; simpl; [reflexivity|now rewrite IH]. Qed.

Lemma append_empty_r (a : string) : (a ++ EmptyString)%string = a.
Proof. induction a as [|x a IH]; simpl; [reflexivity|now rewrite IH]. Qed.

Lemma has_char_append (c : ascii) (a b : string) :
  has_char c (a ++ b) = has_char c a || has_char c b.
Proof.
  induction a as [|x a IH]; simpl; [reflexivity|].
  rewrite IH. apply orb_assoc.
Qed.

Lemma leading_dots_append (dots rest : string) :
  all_dots dots = true -> startswith rest "." = false ->
  leading_dots (dots ++ rest) = (dots, rest).
Proof.
  intros Hd Hr. induction dots as [|a d IH]; simpl in *.
  - destruct rest as [|b r]; [reflexivity|].
    unfold startswith in Hr. simpl in Hr.
    destruct (ascii_dec "." b) as [<-|Hb].
    + destruct r; discriminate.
    + destruct b as [[] [] [] [] [] [] [] []]; try reflexivity.
      exfalso. apply Hb. reflexivity.
  - apply andb_prop in Hd as [Ha Hd]. apply Ascii.eqb_eq in Ha. subst a.
    rewrite (IH Hd). reflexivity.
Qed.

Lemma rsplit_last_none (c : ascii) (s : string) :
  has_char c s = false -> rsplit_last c s = None.
Proof.
  induction s as [|a s IH]; simpl; [reflexivity|].
  intros H. apply orb_false_elim in H as [Ha Hs].
  rewrite (IH Hs), Ha. reflexivity.
Qed.

Lemma rsplit_last_append (c : ascii) (before after : string) :
  has_char c after = false ->
  rsplit_last c (before ++ String c after) = Some (before, after).
Proof.
  intros H. induction before as [|a b IH]; simpl.
  - rewrite (rsplit_last_none _ _ H), Ascii.eqb_refl. reflexivity.
  - rewrite IH. reflexivity.
Qed.

Lemma startswith_no_char (c : ascii) (s rest : string) :
  has_char c s = false -> startswith rest (String c EmptyString) = false ->
  startswith (s ++ rest) (String c EmptyString) = false.
Proof.
  intros H Hr. destruct s as [|a s]; simpl; [exact Hr|].
  simpl in H. apply orb_false_elim in H as [Ha _].
  unfold startswith. simpl.
  destruct (ascii_dec c a) as [->|]; [|reflexivity].
  rewrite Ascii.eqb_refl in Ha. discriminate.
Qed.

(** A separator that starts with [c] is not found inside a string that has
    no [c]: the first occurrence is where the string ends. *)
Lemma prefix_no_char (c : ascii) (sep s rest : string) (a : ascii) :
  has_char c (String a s) = false ->
  prefix (String c sep) (String a s ++ rest) = false.
Proof.
  simpl. intros H. apply orb_false_elim in H as [Ha _].
  destruct (ascii_dec c a) as [->|]; [|reflexivity].
  rewrite Ascii.eqb_refl in Ha. discriminate.
Qed.

Lemma prefix_refl_append (p r : string) : prefix p (p ++ r) = true.
Proof.
  induction p as [|a p IH]; simpl; [destruct r; reflexivity|].
  destruct (ascii_dec a a); [exact IH|contradiction].
Qed.

Lemma contains_after_no_char (c : ascii) (sep s rest : string) :
  has_char c s = false ->
  contains (String c sep) (s ++ String c sep ++ rest) = true.
Proof.
  intros H. unfold contains, find.
  assert (E : exists i, index 0 (String c sep) (s ++ String c sep ++ rest)
                        = Some i).
  { induction s as [|a s IH].
    - exists 0%nat. change (EmptyString ++ String c sep ++ rest)%string
        with (String c (sep ++ rest)).
      cbn [index].
      change (String c (sep ++ rest)) with (String c sep ++ rest)%string.
      rewrite prefix_refl_append. reflexivity.
    - pose proof (prefix_no_char c sep s (String c sep ++ rest) a H) as P.
      simpl in H. apply orb_false_elim in H as [_ Hs].
      destruct (IH Hs) as [i Hi]. exists (S i).
      change ((String a s ++ String c sep ++ rest)%string)
        with (String a (s ++ String c sep ++ rest)) in *.
      cbn [index]. rewrite P, Hi. reflexivity. }
  destruct E as [i ->]. apply Z.leb_le. lia.
Qed.

Lemma split_aux_skip (sep cur s rest : string) :
  split_aux sep (String.length s) cur (s ++ rest) = split_aux sep 0 cur rest.
Proof.
  induction s as [|a s IH]; simpl; [reflexivity|exact IH].
Qed.

Lemma split_aux_no_char (c : ascii) (sep cur s : string) :
  has_char c s = false ->
  split_aux (String c sep) 0 cur s = [(cur ++ s)%string].
Proof.
  revert cur. induction s as [|a s IH]; intros cur H.
  - simpl. rewrite append_empty_r. reflexivity.
  - pose proof (prefix_no_char c sep s EmptyString a H) as P.
    rewrite append_empty_r in P.
    cbn [split_aux]. rewrite P.
    simpl in H. apply orb_false_elim in H as [_ Hs].
    rewrite (IH _ Hs), append_assoc. reflexivity.
Qed.

Lemma split_at_separator (c : ascii) (sep s rest : string) :
  has_char c s = false -> has_char c rest = false ->
  split (s ++ String c sep ++ rest) (String c sep) = [s; rest].
Proof.
  intros Hs Hr. unfold split.
  assert (G : forall cur,
    split_aux (String c sep) 0 cur (s ++ String c sep ++ rest)
    = [(cur ++ s)%string; rest]).
  { induction s as [|a s IH]; intros cur.
    - change (EmptyString ++ String c sep ++ rest)%string
        with (String c (sep ++ rest)).
      cbn [split_aux].
      change (String c (sep ++ rest)) with (String c sep ++ rest)%string.
      rewrite prefix_refl_append, append_empty_r.
      replace (String.length (String c sep) - 1)%nat
        with (String.length sep) by (simpl; lia).
      rewrite split_aux_skip.
      rewrite (split_aux_no_char c sep _ _ Hr). reflexivity.
    - pose proof (prefix_no_char c sep s (String c sep ++ rest) a Hs) as P.
      change ((String a s ++ String c sep ++ rest)%string)
        with (String a (s ++ String c sep ++ rest)) in *.
      cbn [split_aux]. rewrite P.
      simpl in Hs. apply orb_false_elim in Hs as [_ Hs].
      rewrite (IH Hs), append_assoc. reflexivity. }
  apply G.
Qed.

(** ** Stem normalisation *)

Lemma startswith_char (c a : ascii) (s : string) :
  startswith (String a s) (String c EmptyString) = Ascii.eqb a c.
Proof.
  unfold startswith. cbn [prefix].
  destruct (ascii_dec c a) as [->|Hn].
  - rewrite Ascii.eqb_refl. destruct s; reflexivity.
  - symmetry. apply Ascii.eqb_neq. congruence.
Qed.

(** C5: a plain-import stem made of a run of leading dots, a base path and
    a last segment after the last dot -- as in [.foo.bar], with the dot run
    [.], the base [foo] and the last segment [bar] -- is parsed into the
    statement whose stem is the dot run followed by the base and whose only
    leaf is the last segment. *)
Theorem relative_shorthand_folds_last_segment
    (dots base name : string) (line_numbers : list nat) (comments : list Token) :
  dots <> EmptyString -> all_dots dots = true ->
  base <> EmptyString -> startswith base "." = false ->
  has_char "." name = false ->
  parse_import_statement (dots ++ base ++ "." ++ name) line_numbers comments
  = Ok (Statement line_numbers (dots ++ base) [mkImportLeaf name []] comments).
Proof.
  intros Hne Hdots Hbase Hstart Hname.
  unfold parse_import_statement.
  assert (S1 : startswith (dots ++ base ++ "." ++ name) "." = true).
  { destruct dots as [|a d]; [contradiction|].
    simpl in Hdots. apply andb_prop in Hdots as [Ha _].
    change (String a d ++ base ++ "." ++ name)%string
      with (String a (d ++ base ++ "." ++ name)).
    rewrite startswith_char. exact Ha. }
  rewrite S1.
  assert (S2 : startswith (base ++ "." ++ name) "." = false).
  { destruct base as [|a b]; [contradiction|].
    change (String a b ++ "." ++ name)%string
      with (String a (b ++ "." ++ name)).
    rewrite startswith_char in *. exact Hstart. }
  unfold DOTS_findall.
  rewrite (leading_dots_append _ _ Hdots S2).
  change (getitem [(dots, (base ++ "." ++ name)%string)] 0)
    with (Ok (dots, (base ++ "." ++ name)%string)).
  cbn [bind]. unfold rsplit1.
  change (base ++ "." ++ name)%string with (base ++ String "." name)%string.
  rewrite (rsplit_last_append _ _ _ Hname).
  cbn [bind]. rewrite andb_false_r. reflexivity.
Qed.

(** The stem [.foo.bar] itself. *)
Lemma relative_shorthand_foo_bar :
  parse_import_statement ".foo.bar" [1] []
  = Ok (Statement [1] ".foo" [Leaf "bar" None []] []).
Proof.
  apply (relative_shorthand_folds_last_segment "." "foo" "bar" [1] []);
    solve [reflexivity | discriminate].
Defined.

(** C6: a plain-import stem [name as name] whose name has no dot (and no
    blank) -- as in [foo as foo] -- is parsed into the statement whose stem
    is the name alone, without leafs: the alias is dropped. *)
Theorem self_alias_is_dropped
    (name : string) (line_numbers : list nat) (comments : list Token) :
  has_char "." name = false -> has_char " " name = false ->
  parse_import_statement (name ++ " as " ++ name) line_numbers comments
  = Ok (Statement line_numbers name [] comments).
Proof.
  intros Hdot Hblank.
  unfold parse_import_statement.
  rewrite (startswith_no_char "." name (" as " ++ name) Hdot eq_refl).
  assert (Hstem : has_char "." (name ++ " as " ++ name) = false).
  { rewrite has_char_append. simpl. rewrite Hdot. reflexivity. }
  unfold rsplit1. rewrite (rsplit_last_none _ _ Hstem).
  cbn [bind].
  change (name ++ " as " ++ name)%string
    with (name ++ String " " "as " ++ name)%string.
  rewrite (contains_after_no_char " " "as " name name Hblank).
  cbn [andb].
  rewrite (split_at_separator " " "as " name name Hblank Hblank).
  rewrite String.eqb_refl. reflexivity.
Qed.

(** The stem [foo as foo] itself. *)
Lemma self_alias_foo :
  parse_import_statement "foo as foo" [1] []
  = Ok (Statement [1] "foo" [] []).
Proof.
  apply (self_alias_is_dropped "foo" [1] []); reflexivity.
Defined.

(** ** The rounds of the line grouper *)

Lemma find_imports_rounds_round (it : iterator) :
  find_imports_rounds it
  = match one_round it with
    | Stop e => Gen [] e
    | Continue it' => find_imports_rounds it'
    | Yield group it' => yield group (find_imports_rounds it')
    end.
Proof.
  rewrite find_imports_rounds_equation_1.
  destruct (inspect (one_round it)) as [[e|it'|group it'] H].
  - rewrite find_imports_rounds_clause_1_equation_1, H. reflexivity.
  - rewrite find_imports_rounds_clause_1_equation_2, H. reflexivity.
  - rewrite find_imports_rounds_clause_1_equation_3, H. reflexivity.
Qed.

Lemma generator_yield {A : Type} (a : A) (g : gen A) :
  generator (yield a g) = yield a (generator g).
Proof. reflexivity. Qed.

Lemma until_closing_parenthesis_closes
    (mid : iterator) (line : string) (ns : list nat) (ls : list string)
    (nk : nat) (lk : string) (rest : iterator) :
  contains ")" line = false ->
  Forall (fun p => contains ")" (snd p) = false) mid ->
  contains ")" lk = true ->
  until_closing_parenthesis line ns ls (mid ++ (nk, lk) :: rest)
  = Ok (lk, ns ++ map fst mid ++ [nk], ls ++ map snd mid ++ [lk], rest).
Proof.
  revert line ns ls.
  induction mid as [|[n l] mid IH]; intros line ns ls Hline Hmid Hk.
  - simpl. rewrite Hline. simpl.
    destruct rest; simpl; rewrite Hk; reflexivity.
  - inversion Hmid as [|? ? Hl Hmid']; subst. simpl in Hl.
    simpl. rewrite Hline. simpl.
    rewrite (IH l _ _ Hl Hmid' Hk), <- !app_assoc. reflexivity.
Qed.

Lemma until_closing_parenthesis_exhausts
    (it : iterator) (line : string) (ns : list nat) (ls : list string) :
  contains ")" line = false ->
  Forall (fun p => contains ")" (snd p) = false) it ->
  until_closing_parenthesis line ns ls it = Raise StopIteration.
Proof.
  revert line ns ls.
  induction it as [|[n l] it IH]; intros line ns ls Hline Hit;
    simpl; rewrite Hline; simpl; [reflexivity|].
  inversion Hit as [|? ? Hl Hit']; subst. apply (IH _ _ _ Hl Hit').
Qed.

Lemma while_escaped_exhausts
    (it : iterator) (line : string) (ns : list nat) (ls : list string) :
  endswith line "\" = true ->
  Forall (fun p => endswith (snd p) "\" = true) it ->
  while_escaped line ns ls it = Raise StopIteration.
Proof.
  revert line ns ls.
  induction it as [|[n l] it IH]; intros line ns ls Hline Hit;
    simpl; rewrite Hline; [reflexivity|].
  inversion Hit as [|? ? Hl Hit']; subst. apply (IH _ _ _ Hl Hit').
Qed.


Lemma skip_comment_block_exhausts (it : iterator) :
  Forall (fun p => endswith (snd p) triple_quotes = false) it ->
  skip_comment_block true it = None.
Proof.
  induction it as [|[n l] it IH]; intros H; [reflexivity|].
  inversion H as [|? ? Hl Hit]; subst. simpl in Hl.
  cbn [skip_comment_block]. rewrite Hl. exact (IH Hit).
Qed.

Lemma skip_comment_block_closes
    (body : iterator) (n : nat) (closing : string) (rest : iterator) :
  Forall (fun p => endswith (snd p) triple_quotes = false) body ->
  endswith closing triple_quotes = true ->
  skip_comment_block true (body ++ (n, closing) :: rest) = Some rest.
Proof.
  intros Hbody Hc.
  induction body as [|[m l] body IH].
  - cbn [app skip_comment_block]. rewrite Hc. destruct rest; reflexivity.
  - inversion Hbody as [|? ? Hl Hb]; subst. simpl in Hl.
    cbn [app skip_comment_block]. rewrite Hl. exact (IH Hb).
Qed.

(** ** Groups of the line grouper *)

(** C7, as amended: a statement with parenthesis continuation -- an opening
    line that starts with [import ] or [from ], has an opening and no
    closing parenthesis and does not open a comment block, then further
    lines of which only the last has a closing parenthesis, that last line
    not ending in a backslash -- is emitted as one group of all its lines
    in their order, with their numbers, whatever the lines in between are;
    the grouper then goes on with what follows the statement. *)
Theorem parenthesised_statement_is_one_group
    (number : nat) (opening : string) (inside : iterator)
    (last_number : nat) (closing : string) (rest : iterator) :
  has_import opening = true ->
  opens_comment_block opening = false ->
  contains "(" opening = true ->
  contains ")" opening = false ->
  Forall (fun p => contains ")" (snd p) = false) inside ->
  contains ")" closing = true ->
  endswith closing "\" = false ->
  find_imports_from_lines
    ((number, opening) :: inside ++ (last_number, closing) :: rest)
  = yield (opening :: map snd inside ++ [closing],
           number :: map fst inside ++ [last_number])
          (find_imports_from_lines rest).
Proof.
  intros Himport Hblock Hopen Hclose Hinside Hlast Hescape.
  unfold find_imports_from_lines.
  rewrite find_imports_rounds_round.
  cbn [one_round]. rewrite Hblock.
  unfold gather. rewrite Himport, Hopen, Hclose. cbn [negb andb].
  rewrite (until_closing_parenthesis_closes
             inside opening [number] [opening] last_number closing rest
             Hclose Hinside Hlast).
  cbn [bind]. rewrite Hescape. reflexivity.
Qed.

(** A statement of three lines with a blank line inside the parentheses. *)
Lemma parenthesised_statement_of_three_lines :
  find_imports_from_lines
    [(1, "from a import (b,"); (2, ""); (3, "    c)"); (4, "import d")]
  = yield (["from a import (b,"; ""; "    c)"], [1; 2; 3])
          (find_imports_from_lines [(4, "import d")]).
Proof.
  apply (parenthesised_statement_is_one_group
           1 "from a import (b," [(2, "")] 3 "    c)" [(4, "import d")]);
    solve [reflexivity | repeat constructor].
Defined.

(** C7, as it was stated, fails: an opening line whose trailing comment
    holds a triple quote is taken for the start of a comment block, and no
    group is emitted for the statement. *)
Lemma parenthesised_statement_lost_to_comment_block :
  let opening := ("from a import (b,  # " ++ triple_quotes)%string in
  (has_import opening = true
   /\ contains "(" opening = true
   /\ contains ")" opening = false
   /\ contains ")" "    c)" = true)
  /\ find_imports_from_lines [(1, opening); (2, "    c)")] = Gen [] Returned.
Proof. repeat split; reflexivity. Qed.

(** An input that ends inside a comment block ends the grouper by the
    [return] of line 73. *)
Lemma end_inside_comment_block_returns
    (number : nat) (line : string) (rest : iterator) :
  opens_comment_block line = true ->
  Forall (fun p => endswith (snd p) triple_quotes = false) rest ->
  find_imports_from_lines ((number, line) :: rest) = Gen [] Returned.
Proof.
  intros Hblock Hrest. unfold find_imports_from_lines.
  rewrite find_imports_rounds_round. cbn [one_round].
  rewrite Hblock, (skip_comment_block_exhausts rest Hrest). reflexivity.
Qed.

(** An input that ends inside the parentheses of a statement ends the
    grouper by the [StopIteration] of line 93, which leaves the generator
    as a [RuntimeError]. *)
Lemma end_inside_parentheses_raises
    (number : nat) (opening : string) (rest : iterator) :
  has_import opening = true ->
  opens_comment_block opening = false ->
  contains "(" opening = true ->
  contains ")" opening = false ->
  Forall (fun p => contains ")" (snd p) = false) rest ->
  find_imports_rounds ((number, opening) :: rest) = Gen [] (Raised StopIteration)
  /\ find_imports_from_lines ((number, opening) :: rest)
     = Gen [] (Raised RuntimeError).
Proof.
  intros Himport Hblock Hopen Hclose Hrest.
  assert (E : find_imports_rounds ((number, opening) :: rest)
              = Gen [] (Raised StopIteration)).
  { rewrite find_imports_rounds_round. cbn [one_round]. rewrite Hblock.
    unfold gather. rewrite Himport, Hopen, Hclose. cbn [negb andb].
    rewrite (until_closing_parenthesis_exhausts rest _ _ _ Hclose Hrest).
    reflexivity. }
  split; [exact E|]. unfold find_imports_from_lines. rewrite E. reflexivity.
Qed.

(** An input that ends after a line with a trailing backslash ends the
    grouper by the [StopIteration] of line 101, in the same way. *)
Lemma end_after_backslash_raises
    (number : nat) (line : string) (rest : iterator) :
  has_import line = true ->
  opens_comment_block line = false ->
  contains "(" line = false ->
  endswith line "\" = true ->
  Forall (fun p => endswith (snd p) "\" = true) rest ->
  find_imports_rounds ((number, line) :: rest) = Gen [] (Raised StopIteration)
  /\ find_imports_from_lines ((number, line) :: rest)
     = Gen [] (Raised RuntimeError).
Proof.
  intros Himport Hblock Hopen Hescape Hrest.
  assert (E : find_imports_rounds ((number, line) :: rest)
              = Gen [] (Raised StopIteration)).
  { rewrite find_imports_rounds_round. cbn [one_round]. rewrite Hblock.
    unfold gather. rewrite Himport, Hopen. cbn [negb andb bind].
    rewrite Hescape.
    rewrite (while_escaped_exhausts rest _ _ _ Hescape Hrest).
    reflexivity. }
  split; [exact E|]. unfold find_imports_from_lines. rewrite E. reflexivity.
Qed.

(** C1: what the grouper does on inputs that end in the middle of a
    continuation.  Inside a comment block it stops without an error.
    Inside parentheses and after a trailing backslash the [StopIteration]
    of the unguarded [next(iterator)] escapes the body of the generator,
    and the caller gets a [RuntimeError]. *)
Theorem truncated_continuations :
  find_imports_from_lines [(1, "import os"); (2, triple_quotes); (3, "text")]
    = Gen [(["import os"], [1])] Returned
  /\ find_imports_rounds [(1, "import os"); (2, "from a import (b,")]
    = Gen [(["import os"], [1])] (Raised StopIteration)
  /\ find_imports_from_lines [(1, "import os"); (2, "from a import (b,")]
    = Gen [(["import os"], [1])] (Raised RuntimeError)
  /\ find_imports_rounds [(1, "import os"); (2, "import a, \")]
    = Gen [(["import os"], [1])] (Raised StopIteration)
  /\ find_imports_from_lines [(1, "import os"); (2, "import a, \")]
    = Gen [(["import os"], [1])] (Raised RuntimeError).
Proof. repeat split; reflexivity. Qed.

(** C10: the line that is read right after the closing line of a comment
    block is only tested for the [import ]/[from ] prefix: when it has
    none, the grouper goes on with the line after it, whether or not it
    opens a comment block itself.  So with two comment blocks in a row the
    second one is not skipped, and an [import ] line inside it is emitted
    as a group. *)
Theorem line_after_comment_block_is_not_checked :
  (forall (number : nat) (line : string) (body : iterator)
          (closing_number : nat) (closing : string)
          (next_number : nat) (next_line : string) (rest : iterator),
      opens_comment_block line = true ->
      Forall (fun p => endswith (snd p) triple_quotes = false) body ->
      endswith closing triple_quotes = true ->
      has_import next_line = false ->
      find_imports_from_lines
        ((number, line) :: body
           ++ (closing_number, closing) :: (next_number, next_line) :: rest)
      = find_imports_from_lines rest)
  /\ opens_comment_block triple_quotes = true
  /\ find_imports_from_lines
       [(1, triple_quotes); (2, "first block"); (3, triple_quotes);
        (4, triple_quotes); (5, "import os"); (6, triple_quotes)]
     = Gen [(["import os"], [5])] Returned.
Proof.
  split; [|split; reflexivity].
  intros number line body closing_number closing next_number next_line rest
         Hblock Hbody Hclosing Hnext.
  unfold find_imports_from_lines. f_equal.
  rewrite find_imports_rounds_round. cbn [one_round].
  rewrite Hblock, (skip_comment_block_closes body _ _ _ Hbody Hclosing).
  unfold gather. rewrite Hnext. reflexivity.
Qed.

(** ** The loop of the statement parser *)

Lemma list_split_from_without (split : Token) (l segment : list Token) :
  ~ In split l ->
  list_split_from segment l split
  = match segment ++ l with
    | [] => []
    | _ :: _ => [segment ++ l]
    end.
Proof.
  revert segment. induction l as [|i l IH]; intros segment H.
  - simpl. rewrite app_nil_r. destruct segment; reflexivity.
  - simpl. destruct (String.eqb_spec i split) as [->|_].
    + exfalso. apply H. left. reflexivity.
    + rewrite IH by (intros Hin; apply H; right; exact Hin).
      rewrite <- app_assoc. reflexivity.
Qed.

Lemma from_statement_without_import
    (first : Token) (others : list Token) (line_numbers : list nat) :
  ~ In "import" others ->
  from_statement (first :: others) line_numbers = Raise ValueError.
Proof.
  intros H. unfold from_statement, list_split, from1. cbn [tl].
  rewrite (list_split_from_without _ _ _ H). cbn [app].
  destruct others; reflexivity.
Qed.

Lemma parse_groups_app (before after : list LineGroup) (last : ending) :
  parse_groups (before ++ after) last
  = and_then (parse_groups before Returned) (parse_groups after last).
Proof.
  induction before as [|g before IH]; cbn [app parse_groups].
  - unfold and_then. cbn. destruct (parse_groups after last). reflexivity.
  - rewrite IH. unfold and_then.
    destruct (parse_group g) as [ys [|e]]; cbn; [|reflexivity].
    destruct (parse_groups before Returned) as [zs [|e]]; cbn; [|reflexivity].
    rewrite app_assoc. reflexivity.
Qed.

(** C2, as amended: a line group whose tokens start with a token other than
    [import] and have no [import] token after it makes the parser fail:
    unpacking what [list_split] gives raises [ValueError], which reaches
    the caller of [parse_statements] after the statements of the groups
    before it; no statement is produced for the group itself or for a later
    one.  The error is the same whatever the line numbers of the group
    are. *)
Theorem from_form_without_import_fails
    (import_lines : list string) (line_numbers : list nat)
    (first : Token) (others : list Token)
    (before after : list LineGroup) (last : ending) :
  tokenize_import_lines import_lines = Ok (first :: others) ->
  first <> "import" ->
  ~ In "import" others ->
  ended (parse_groups before Returned) = Returned ->
  parse_group (import_lines, line_numbers) = Gen [] (Raised ValueError)
  /\ parse_statements
       (Gen (before ++ (import_lines, line_numbers) :: after) last)
     = Gen (yielded (parse_groups before Returned)) (Raised ValueError).
Proof.
  intros Htok Hfirst Hothers Hbefore.
  assert (G : parse_group (import_lines, line_numbers)
              = Gen [] (Raised ValueError)).
  { unfold parse_group. rewrite Htok.
    change (getitem (first :: others) 0) with (Ok first). cbv beta iota.
    destruct (String.eqb_spec first "import") as [E|_]; [contradiction|].
    rewrite (from_statement_without_import _ _ _ Hothers). reflexivity. }
  split; [exact G|].
  unfold parse_statements. cbn [yielded ended].
  rewrite parse_groups_app. cbn [parse_groups]. rewrite G.
  unfold and_then at 2. cbn [ended].
  unfold and_then. rewrite Hbefore. cbn. rewrite app_nil_r. reflexivity.
Qed.

(** The group [from a] after the group [import os]. *)
Lemma from_form_without_import_after_import_os :
  parse_group (["from a"], [2]) = Gen [] (Raised ValueError)
  /\ parse_statements (Gen ([(["import os"], [1])] ++ [(["from a"], [2])]) Returned)
     = Gen (yielded (parse_groups [(["import os"], [1])] Returned))
           (Raised ValueError).
Proof.
  apply (from_form_without_import_fails
           ["from a"] [2] "from" ["a"] [(["import os"], [1])] [] Returned);
    [reflexivity | discriminate | | reflexivity].
  simpl. intros [H|[]]. discriminate.
Defined.

(** C2, as it was stated, fails: the failure of the malformed group
    [from a] is the same for the line number 7 and for the line number 8,
    so it does not tell the line numbers of the group. *)
Lemma failure_of_from_form_has_no_line_numbers :
  tokenize_import_lines ["from a"] = Ok ["from"; "a"]
  /\ parse_statements (Gen [(["from a"], [7])] Returned)
     = Gen [] (Raised ValueError)
  /\ parse_statements (Gen [(["from a"], [8])] Returned)
     = Gen [] (Raised ValueError).
Proof. repeat split; reflexivity. Qed.

(** Where the elements of a [flat_map] come from: an element that stands
    later comes from the same place of the list or from a later one. *)
Lemma flat_map_origin {A B : Type} (f : A -> list B) (l : list A)
    (j : nat) (t : B) :
  nth_error (flat_map f l) j = Some t ->
  exists b y, nth_error l b = Some y /\ In t (f y).
Proof.
  intros H. apply nth_error_In in H. apply in_flat_map in H as [y [Hy Ht]].
  apply In_nth_error in Hy as [b Hb]. exists b, y. split; assumption.
Qed.

Lemma flat_map_order {A B : Type} (f : A -> list B) (l : list A)
    (i j : nat) (s t : B) :
  i <= j ->
  nth_error (flat_map f l) i = Some s ->
  nth_error (flat_map f l) j = Some t ->
  exists a b x y,
    a <= b /\ nth_error l a = Some x /\ nth_error l b = Some y
    /\ In s (f x) /\ In t (f y).
Proof.
  revert i j. induction l as [|x l IH]; intros i j Hij Hi Hj.
  - destruct i; discriminate.
  - cbn [flat_map] in Hi, Hj.
    destruct (Nat.lt_ge_cases i (List.length (f x))) as [Hlt|Hge].
    + rewrite nth_error_app1 in Hi by exact Hlt.
      apply nth_error_In in Hi.
      destruct (Nat.lt_ge_cases j (List.length (f x))) as [Hlt'|Hge'].
      * rewrite nth_error_app1 in Hj by exact Hlt'.
        apply nth_error_In in Hj.
        exists 0, 0, x, x. repeat split; auto.
      * rewrite nth_error_app2 in Hj by exact Hge'.
        destruct (flat_map_origin f l _ _ Hj) as [b [y [Hb Hy]]].
        exists 0, (S b), x, y. repeat split; auto. lia.
    + rewrite nth_error_app2 in Hi by exact Hge.
      rewrite nth_error_app2 in Hj by lia.
      destruct (IH (i - List.length (f x)) (j - List.length (f x)))
        as [a [b [x' [y [Hab [Ha [Hb [Hs Ht]]]]]]]]; [lia|assumption..|].
      exists (S a), (S b), x', y. repeat split; auto. lia.
Qed.

Lemma nth_error_firstn_some {A : Type} (k : nat) (l : list A) (a : nat) (x : A) :
  nth_error (firstn k l) a = Some x -> nth_error l a = Some x.
Proof.
  revert l a. induction k as [|k IH]; intros l a H.
  - destruct a; discriminate.
  - destruct l as [|y l]; [destruct a; discriminate|].
    destruct a as [|a]; [exact H|]. apply (IH l a H).
Qed.

Lemma parse_groups_yielded (groups : list LineGroup) (last : ending) :
  exists parsed,
    yielded (parse_groups groups last)
    = flat_map (fun group => yielded (parse_group group)) (firstn parsed groups).
Proof.
  induction groups as [|g groups [k IH]].
  - exists 0. reflexivity.
  - cbn [parse_groups]. unfold and_then.
    destruct (ended (parse_group g)).
    + exists (S k). cbn. rewrite IH. reflexivity.
    + exists 1. cbn. rewrite app_nil_r. reflexivity.
Qed.

Lemma import_statements_yielded
    (segments : list (list Token)) (line_numbers : list nat) :
  exists parsed,
    map Ok (yielded (import_statements segments line_numbers))
    = map (segment_statement line_numbers) (firstn parsed segments).
Proof.
  induction segments as [|seg segments [k IH]].
  - exists 0. reflexivity.
  - cbn [import_statements].
    destruct (segment_statement line_numbers seg) as [statement|e] eqn:E.
    + exists (S k). cbn. rewrite IH, E. reflexivity.
    + exists 0. reflexivity.
Qed.

(** C8: the statements that [parse_statements] yields are the statements of
    the first groups of the iterable, group after group in the order of the
    groups; so of two statements the later one comes from the same group or
    from a later group.  The statements of one plain-import group are those
    of its first segments between commas, in the order of the segments. *)
Theorem statements_follow_their_groups (iterable : gen LineGroup) :
  (exists parsed,
      yielded (parse_statements iterable)
      = flat_map (fun group => yielded (parse_group group))
          (firstn parsed (yielded iterable)))
  /\ (forall i j s t,
        i <= j ->
        nth_error (yielded (parse_statements iterable)) i = Some s ->
        nth_error (yielded (parse_statements iterable)) j = Some t ->
        exists a b group group',
          a <= b
          /\ nth_error (yielded iterable) a = Some group
          /\ nth_error (yielded iterable) b = Some group'
          /\ In s (yielded (parse_group group))
          /\ In t (yielded (parse_group group')))
  /\ (forall segments line_numbers,
        exists parsed,
          map Ok (yielded (import_statements segments line_numbers))
          = map (segment_statement line_numbers) (firstn parsed segments)).
Proof.
  destruct (parse_groups_yielded (yielded iterable) (ended iterable))
    as [k Hk].
  assert (E : yielded (parse_statements iterable)
              = flat_map (fun group => yielded (parse_group group))
                  (firstn k (yielded iterable))) by exact Hk.
  split; [exists k; exact E|]. split.
  - intros i j s t Hij Hi Hj. rewrite E in Hi, Hj.
    destruct (flat_map_order _ _ _ _ _ _ Hij Hi Hj)
      as [a [b [x [y [Hab [Ha [Hb [Hs Ht]]]]]]]].
    exists a, b, x, y. repeat split; auto;
      eapply nth_error_firstn_some; eassumption.
  - apply import_statements_yielded.
Qed.

(** ** Tokens of a line group *)

Lemma words_of_import_line (line : string) :
  has_import line = true ->
  exists keyword rest,
    (keyword = "import" \/ keyword = "from")
    /\ startswith line (keyword ++ " ") = true
    /\ words_of_line line = keyword :: words_of_line rest.
Proof.
  unfold has_import. intros H. apply orb_prop in H as [H|H].
  - destruct (prefix_append _ _ H) as [r ->].
    exists "from", r. repeat split; [right; reflexivity|exact H].
  - destruct (prefix_append _ _ H) as [r ->].
    exists "import", r. repeat split; [left; reflexivity|exact H].
Qed.

(** The loop over the words of a line never raises, and it keeps the first
    token in its place when that token is not a comma. *)
Lemma reassociate_total (words : list string) (_tokens : list Token) :
  exists tokens,
    reassociate (Z.of_nat (List.length _tokens)) _tokens words = Ok tokens
    /\ (forall first, first <> "," ->
          hd_error _tokens = Some first -> hd_error tokens = Some first).
Proof.
  revert _tokens. induction words as [|word words IH]; intros _tokens.
  - exists _tokens. split; [reflexivity|auto].
  - cbn [reassociate].
    assert (Step : exists next,
      (moved <-
         (if is_comment word then
            match _tokens with
            | [] => Ok false
            | _ :: _ =>
                t <- getitem _tokens
                       (Z.max (Z.of_nat (List.length _tokens) - 1) 0) ;;
                Ok (String.eqb t ",")
            end
          else Ok false) ;;
       reassociate (Z.of_nat (List.length _tokens) + 1)
         (if (moved : bool)
          then insert _tokens (Z.of_nat (List.length _tokens) - 1) word
          else _tokens ++ [word])
         words)
      = reassociate (Z.of_nat (List.length next)) next words
      /\ (forall first, first <> "," ->
            hd_error _tokens = Some first -> hd_error next = Some first)
      /\ (_tokens = [] -> is_comment word = false -> next = [word])).
    { assert (Happ : forall first : Token,
                hd_error _tokens = Some first ->
                hd_error (_tokens ++ [word]) = Some first)
        by (intros first; destruct _tokens; [discriminate|auto]).
      assert (Hlen : (Z.of_nat (List.length _tokens) + 1)%Z
                     = Z.of_nat (List.length (_tokens ++ [word])))
        by (rewrite length_app; simpl; lia).
      destruct (is_comment word) eqn:Hc.
      2:{ exists (_tokens ++ [word]). cbn [bind]. rewrite Hlen.
          split; [reflexivity|split]; [intros first _; apply Happ|].
          intros ->. reflexivity. }
      destruct (list_end_cases _tokens) as [->|[pre [x ->]]].
      { exists [word].
        split; [reflexivity|split]; [discriminate|discriminate]. }
      rewrite (match_snoc pre x).
      rewrite getitem_before_end. cbn [bind].
      destruct (String.eqb_spec x ",") as [->|Hx].
      - exists (pre ++ [word; ","]). rewrite insert_before_end.
        split; [f_equal; rewrite !length_app; simpl; lia|split].
        + intros first Hfirst Hhd. destruct pre as [|p pre]; simpl in *.
          * congruence.
          * exact Hhd.
        + intros E; destruct pre; discriminate.
      - exists ((pre ++ [x]) ++ [word]). rewrite Hlen.
        split; [reflexivity|split]; [intros first _; apply Happ|].
        intros E; destruct pre; discriminate. }
    destruct Step as [next [E [Hhd _]]].
    destruct (IH next) as [tokens [Ht Hkeep]].
    exists tokens. split; [|auto].
    transitivity (reassociate (Z.of_nat (List.length next)) next words);
      [exact E|exact Ht].
Qed.

Lemma line_tokens_total (line : string) :
  exists tokens, line_tokens line = Ok tokens.
Proof.
  destruct (reassociate_total (words_of_line line) []) as [tokens [H _]].
  exists tokens. exact H.
Qed.

Lemma all_line_tokens_total (import_lines : list string) :
  exists tokens, all_line_tokens import_lines = Ok tokens.
Proof.
  induction import_lines as [|line rest [tokens IH]].
  - exists []. reflexivity.
  - destruct (line_tokens_total line) as [t Ht].
    exists (t ++ tokens). cbn [all_line_tokens]. rewrite Ht, IH. reflexivity.
Qed.

Lemma line_tokens_of_import_line (line : string) :
  has_import line = true ->
  exists keyword rest,
    (keyword = "import" \/ keyword = "from")
    /\ startswith line (keyword ++ " ") = true
    /\ line_tokens line = Ok (keyword :: rest).
Proof.
  intros H.
  destruct (words_of_import_line line H) as [keyword [r [Hk [Hs Hw]]]].
  exists keyword. unfold line_tokens. rewrite Hw.
  assert (Hfirst : reassociate 0 [] (keyword :: words_of_line r)
                   = reassociate (Z.of_nat (List.length [keyword])) [keyword]
                       (words_of_line r))
    by (destruct Hk as [-> | ->]; reflexivity).
  rewrite Hfirst.
  destruct (reassociate_total (words_of_line r) [keyword])
    as [tokens [Ht Hhd]].
  assert (Hne : keyword <> ",") by (destruct Hk as [-> | ->]; discriminate).
  specialize (Hhd keyword Hne eq_refl).
  destruct tokens as [|t tokens]; [discriminate|].
  injection Hhd as ->. exists tokens. repeat split; assumption.
Qed.

Lemma all_line_tokens_of_import_line (line : string) (more : list string) :
  has_import line = true ->
  exists keyword rest,
    (keyword = "import" \/ keyword = "from")
    /\ startswith line (keyword ++ " ") = true
    /\ all_line_tokens (line :: more) = Ok (keyword :: rest).
Proof.
  intros H.
  destruct (line_tokens_of_import_line line H) as [keyword [r [Hk [Hs Hl]]]].
  destruct (all_line_tokens_total more) as [tokens Ht].
  exists keyword, (r ++ tokens). repeat split; [exact Hk|exact Hs|].
  cbn [all_line_tokens]. rewrite Hl, Ht. reflexivity.
Qed.

(** The first segment that [list_split] produces starts with what had been
    gathered before. *)
Lemma list_split_from_first (split : Token) (l segment : list Token) :
  segment <> [] ->
  exists more segments,
    list_split_from segment l split = (segment ++ more) :: segments
    /\ (~ In split l -> more = l /\ segments = []).
Proof.
  revert segment. induction l as [|i l IH]; intros segment Hne.
  - exists [], []. rewrite app_nil_r. split; [|auto].
    destruct segment; [contradiction|reflexivity].
  - cbn [list_split_from]. destruct (String.eqb_spec i split) as [->|Hi].
    + exists [], (list_split_from [] l split). rewrite app_nil_r.
      split; [reflexivity|]. intros H. exfalso. apply H. left. reflexivity.
    + destruct (IH (segment ++ [i])) as [more [segments [E Hno]]];
        [destruct segment; discriminate|].
      exists (i :: more), segments. rewrite E, <- app_assoc.
      split; [reflexivity|]. intros H.
      destruct Hno as [-> ->]; [intros Hin; apply H; right; exact Hin|].
      split; reflexivity.
Qed.

(** Joining the segments only ever adds to the end of the first token. *)
Lemma join_segments_first (segments : list (list Token))
    (keyword joined : string) (others tokens : list Token) :
  join_segments ((keyword ++ joined)%string :: others) segments = Ok tokens ->
  exists joined' others',
    tokens = (keyword ++ joined')%string :: others'
    /\ (others <> [] \/ segments = [] -> joined' = joined).
Proof.
  revert joined others.
  induction segments as [|segment segments IH]; intros joined others H.
  - injection H as <-. exists joined, others. split; [reflexivity|auto].
  - cbn [join_segments] in H.
    destruct segment as [|word segment]; [discriminate|].
    change (getitem (word :: segment) 0) with (Ok word) in H.
    cbn [bind from1 tl] in H.
    destruct (list_end_cases others) as [->|[pre [x ->]]].
    + change [(keyword ++ joined)%string]
        with ([] ++ [(keyword ++ joined)%string]) in H.
      rewrite add_to_last_snoc in H. cbn [bind app] in H.
      rewrite append_assoc in H.
      destruct (IH _ _ H) as [joined' [others' [-> _]]].
      exists joined', others'. split; [reflexivity|].
      intros [E|E]; [contradiction|discriminate].
    + change ((keyword ++ joined)%string :: pre ++ [x])
        with (((keyword ++ joined)%string :: pre) ++ [x]) in H.
      rewrite add_to_last_snoc in H. cbn [bind] in H.
      rewrite <- app_assoc in H. cbn [app] in H.
      destruct (IH _ _ H) as [joined' [others' [-> Hsame]]].
      exists joined', others'. split; [reflexivity|]. intros _.
      apply Hsame. left. destruct pre; discriminate.
Qed.

(** The first segment of the tokens of a group. *)
Lemma first_segment (keyword : Token) (rest : list Token) :
  keyword <> "\" ->
  exists more segments,
    list_split (keyword :: rest) "\" = (keyword :: more) :: segments
    /\ (hd_error rest <> Some "\" -> more <> [] \/ segments = [])
    /\ (~ In "\" rest -> more = rest /\ segments = []).
Proof.
  intros Hk. unfold list_split. cbn [list_split_from].
  destruct (String.eqb_spec keyword "\") as [E|_]; [contradiction|].
  cbn [app]. destruct rest as [|t rest].
  - exists [], []. repeat split; auto.
  - cbn [list_split_from]. destruct (String.eqb_spec t "\") as [->|Ht].
    + exists [], (list_split_from [] rest "\"). split; [reflexivity|split].
      * intros H. exfalso. apply H. reflexivity.
      * intros H. exfalso. apply H. left. reflexivity.
    + cbn [app].
      destruct (list_split_from_first "\" rest [keyword; t])
        as [more [segments [E Hno]]]; [discriminate|].
      exists (t :: more), segments. split; [exact E|split].
      * intros _. left. discriminate.
      * intros H. destruct Hno as [-> ->];
          [intros Hin; apply H; right; exact Hin|].
        split; reflexivity.
Qed.

(** The tokens of a group whose lines give the tokens [keyword :: rest]
    before the segments between backslashes are joined. *)
Lemma tokens_after_keyword (import_lines : list string)
    (keyword : Token) (rest : list Token) :
  keyword <> "\" ->
  all_line_tokens import_lines = Ok (keyword :: rest) ->
  (forall tokens,
      tokenize_import_lines import_lines = Ok tokens ->
      exists joined others,
        tokens = (keyword ++ joined)%string :: others
        /\ getitem tokens 0 = Ok (keyword ++ joined)%string
        /\ (hd_error rest <> Some "\" -> joined = EmptyString))
  /\ (~ In "\" rest ->
      tokenize_import_lines import_lines = Ok (keyword :: rest)).
Proof.
  intros Hk Hall. unfold tokenize_import_lines. rewrite Hall. cbn [bind].
  destruct (first_segment keyword rest Hk) as [more [segments [E [Hhd Hno]]]].
  rewrite E. cbn [join_segments].
  change (getitem (keyword :: more) 0) with (Ok keyword).
  cbn [bind from1 tl].
  change (add_to_last [EmptyString] keyword) with (Ok [keyword]).
  cbn [bind app].
  split.
  - intros tokens H.
    rewrite <- (append_empty_r keyword) in H at 1.
    destruct (join_segments_first _ _ _ _ _ H) as [joined [others [-> Hsame]]].
    exists joined, others. split; [reflexivity|split; [reflexivity|]].
    intros Hrest. apply Hsame. apply Hhd. exact Hrest.
  - intros H. destruct (Hno H) as [-> ->]. reflexivity.
Qed.

(** ** The groups that the grouper yields *)

Lemma until_closing_parenthesis_extends
    (it : iterator) (line : string) (ns : list nat) (ls : list string)
    (line' : string) (ns' : list nat) (ls' : list string) (it' : iterator) :
  until_closing_parenthesis line ns ls it = Ok (line', ns', ls', it') ->
  exists more, ls' = ls ++ more.
Proof.
  revert line ns ls.
  induction it as [|[n l] it IH]; intros line ns ls H; simpl in H;
    destruct (negb (contains ")" line)); try discriminate.
  - injection H as <- <- <- <-. exists []. rewrite app_nil_r. reflexivity.
  - destruct (IH _ _ _ H) as [more ->]. exists (l :: more).
    rewrite <- app_assoc. reflexivity.
  - injection H as <- <- <- <-. exists []. rewrite app_nil_r. reflexivity.
Qed.

Lemma while_escaped_extends
    (it : iterator) (line : string) (ns : list nat) (ls : list string)
    (line' : string) (ns' : list nat) (ls' : list string) (it' : iterator) :
  while_escaped line ns ls it = Ok (line', ns', ls', it') ->
  exists more, ls' = ls ++ more.
Proof.
  revert line ns ls.
  induction it as [|[n l] it IH]; intros line ns ls H; simpl in H;
    destruct (endswith line "\"); try discriminate.
  - injection H as <- <- <- <-. exists []. rewrite app_nil_r. reflexivity.
  - destruct (IH _ _ _ H) as [more ->]. exists (l :: more).
    rewrite <- app_assoc. reflexivity.
  - injection H as <- <- <- <-. exists []. rewrite app_nil_r. reflexivity.
Qed.

Lemma gather_yields (number : nat) (line : string) (it : iterator)
    (import_lines : list string) (line_numbers : list nat) (it' : iterator) :
  gather number line it = Yield (import_lines, line_numbers) it' ->
  has_import line = true /\ exists more, import_lines = line :: more.
Proof.
  unfold gather. destruct (has_import line); [|discriminate].
  cbn [negb]. intros H. split; [reflexivity|].
  destruct (contains "(" line && negb (contains ")" line)).
  - destruct (until_closing_parenthesis line [number] [line] it)
      as [[[[l1 ns1] ls1] i1]|e] eqn:E1; cbn [bind] in H; [|discriminate].
    destruct (until_closing_parenthesis_extends _ _ _ _ _ _ _ _ E1)
      as [more1 ->].
    destruct (endswith l1 "\").
    + destruct (while_escaped l1 ns1 ([line] ++ more1) i1)
        as [[[[l2 ns2] ls2] i2]|e] eqn:E2; [|discriminate].
      destruct (while_escaped_extends _ _ _ _ _ _ _ _ E2) as [more2 ->].
      injection H as <- _ _. exists (more1 ++ more2). reflexivity.
    + injection H as <- _ _. exists more1. reflexivity.
  - cbn [bind] in H. destruct (endswith line "\").
    + destruct (while_escaped line [number] [line] it)
        as [[[[l2 ns2] ls2] i2]|e] eqn:E2; [|discriminate].
      destruct (while_escaped_extends _ _ _ _ _ _ _ _ E2) as [more2 ->].
      injection H as <- _ _. exists more2. reflexivity.
    + injection H as <- _ _. exists []. reflexivity.
Qed.

Lemma one_round_yields (it : iterator)
    (import_lines : list string) (line_numbers : list nat) (it' : iterator) :
  one_round it = Yield (import_lines, line_numbers) it' ->
  exists line more, import_lines = line :: more /\ has_import line = true.
Proof.
  destruct it as [|[n l] it]; [discriminate|]. cbn [one_round].
  destruct (opens_comment_block l).
  - destruct (skip_comment_block true it) as [[|[n1 l1] it1]|];
      try discriminate.
    intros H. apply gather_yields in H as [Hi [more ->]].
    exists l1, more. split; [reflexivity|exact Hi].
  - intros H. apply gather_yields in H as [Hi [more ->]].
    exists l, more. split; [reflexivity|exact Hi].
Qed.

Lemma yielded_groups_start_with_import (it : iterator)
    (import_lines : list string) (line_numbers : list nat) :
  In (import_lines, line_numbers) (yielded (find_imports_from_lines it)) ->
  exists line more, import_lines = line :: more /\ has_import line = true.
Proof.
  unfold find_imports_from_lines. cbn [generator yielded].
  funelim (find_imports_rounds it).
  - intros [].
  - match goal with IH : forall _ _, In _ _ -> _ |- _ => apply IH end.
  - cbn [yield yielded]. intros [E|Hin].
    + subst group. eapply one_round_yields. eassumption.
    + match goal with IH : forall _ _, In _ _ -> _ |- _ =>
        apply (IH _ _ Hin) end.
Qed.

(** C9, as amended: a group that the grouper yields has a first line that
    starts with the keyword [import] or [from] and a blank, and the tokens
    of its lines start with that keyword.  Whenever the tokenizer returns,
    its tokens are not empty, so that [tokens[0]] can be read, and the
    first token starts with the keyword; it is the keyword itself unless a
    backslash token follows the keyword, in which case the words after the
    backslash have been joined to it.  When no backslash token follows
    anywhere, the tokenizer does return, and its tokens are those of the
    lines. *)
Theorem first_token_of_a_yielded_group
    (it : iterator) (import_lines : list string) (line_numbers : list nat) :
  In (import_lines, line_numbers) (yielded (find_imports_from_lines it)) ->
  exists first_line more keyword rest,
    import_lines = first_line :: more
    /\ (keyword = "import" \/ keyword = "from")
    /\ startswith first_line (keyword ++ " ") = true
    /\ all_line_tokens import_lines = Ok (keyword :: rest)
    /\ (forall tokens,
          tokenize_import_lines import_lines = Ok tokens ->
          exists joined others,
            tokens = (keyword ++ joined)%string :: others
            /\ getitem tokens 0 = Ok (keyword ++ joined)%string
            /\ (hd_error rest <> Some "\" -> joined = EmptyString))
    /\ (~ In "\" rest ->
        tokenize_import_lines import_lines = Ok (keyword :: rest)).
Proof.
  intros Hin.
  destruct (yielded_groups_start_with_import _ _ _ Hin)
    as [line [more [-> Himport]]].
  destruct (all_line_tokens_of_import_line line more Himport)
    as [keyword [rest [Hk [Hs Hall]]]].
  assert (Hne : keyword <> "\") by (destruct Hk as [-> | ->]; discriminate).
  destruct (tokens_after_keyword _ _ _ Hne Hall) as [Hfirst Htotal].
  exists line, more, keyword, rest. repeat split; assumption.
Qed.

(** The group of the single line [import os]. *)
Lemma first_token_of_import_os :
  exists first_line more keyword rest,
    ["import os"] = first_line :: more
    /\ (keyword = "import" \/ keyword = "from")
    /\ startswith first_line (keyword ++ " ") = true
    /\ all_line_tokens ["import os"] = Ok (keyword :: rest)
    /\ (forall tokens,
          tokenize_import_lines ["import os"] = Ok tokens ->
          exists joined others,
            tokens = (keyword ++ joined)%string :: others
            /\ getitem tokens 0 = Ok (keyword ++ joined)%string
            /\ (hd_error rest <> Some "\" -> joined = EmptyString))
    /\ (~ In "\" rest ->
        tokenize_import_lines ["import os"] = Ok (keyword :: rest)).
Proof.
  apply (first_token_of_a_yielded_group [(1, "import os")] ["import os"] [1]).
  left. reflexivity.
Defined.

(** C9, as it was stated, fails: the grouper yields the group of the lines
    [import \] and [os]; its tokens are the single token [importos], which
    is neither [import] nor [from], and the group fails in the [from]
    branch.  For the group of the lines [import a \\] and [b], also
    yielded, the tokenizer does not return at all. *)
Lemma keyword_joined_with_the_next_word :
  find_imports_from_lines [(1, "import \"); (2, "os")]
    = Gen [(["import \"; "os"], [1; 2])] Returned
  /\ tokenize_import_lines ["import \"; "os"] = Ok ["importos"]
  /\ parse_group (["import \"; "os"], [1; 2]) = Gen [] (Raised ValueError)
  /\ find_imports_from_lines [(1, "import a \\"); (2, "b")]
    = Gen [(["import a \\"; "b"], [1; 2])] Returned
  /\ tokenize_import_lines ["import a \\"; "b"] = Raise IndexError.
Proof. repeat split; reflexivity. Qed.

(** * Further properties of the line grouper *)


(** X1: a statement on one line -- a line that starts with [import ] or
    [from ], does not open a comment block, has no opening parenthesis
    left open and does not end in a backslash -- is emitted as the group of
    that line with its number, and the grouper goes on with the next
    line. *)
Theorem single_line_statement_is_one_group
    (number : nat) (line : string) (rest : iterator) :
  has_import line = true ->
  opens_comment_block line = false ->
  contains "(" line && negb (contains ")" line) = false ->
  endswith line "\" = false ->
  find_imports_from_lines ((number, line) :: rest)
  = yield ([line], [number]) (find_imports_from_lines rest).
Proof.
  intros Himport Hblock Hparen Hescape.
  unfold find_imports_from_lines.
  rewrite find_imports_rounds_round. cbn [one_round]. rewrite Hblock.
  unfold gather. rewrite Himport, Hparen. cbn [negb bind].
  rewrite Hescape. reflexivity.
Qed.

(** The line [from a import (b, c)] before the line [x = 1]. *)
Lemma single_line_statement_with_parentheses :
  find_imports_from_lines [(3, "from a import (b, c)"); (4, "x = 1")]
  = yield (["from a import (b, c)"], [3])
          (find_imports_from_lines [(4, "x = 1")]).
Proof.
  apply (single_line_statement_is_one_group 3 "from a import (b, c)"
           [(4, "x = 1")]); reflexivity.
Defined.

Lemma other_line_is_passed_over
    (number : nat) (line : string) (rest : iterator) :
  opens_comment_block line = false ->
  has_import line = false ->
  find_imports_from_lines ((number, line) :: rest)
  = find_imports_from_lines rest.
Proof.
  intros Hblock Himport. unfold find_imports_from_lines. f_equal.
  rewrite find_imports_rounds_round. cbn [one_round]. rewrite Hblock.
  unfold gather. rewrite Himport. reflexivity.
Qed.

(** X2: lines that neither open a comment block nor start with [import ]
    or [from ] are passed over, whatever they hold (parentheses, a
    trailing backslash, an indented [import]): the groups of a file are
    those of what follows such lines, and a file of such lines only has no
    group and ends the grouper without an error. *)
Theorem other_lines_are_passed_over (others rest : iterator) :
  Forall (fun p => opens_comment_block (snd p) = false
                   /\ has_import (snd p) = false) others ->
  find_imports_from_lines (others ++ rest) = find_imports_from_lines rest
  /\ find_imports_from_lines others = Gen [] Returned.
Proof.
  intros H.
  assert (G : forall rest',
    find_imports_from_lines (others ++ rest') = find_imports_from_lines rest').
  { intros rest'. induction others as [|[n l] others IH]; [reflexivity|].
    inversion H as [|? ? [Hb Hi] Hothers]; subst. cbn [snd] in *.
    cbn [app]. rewrite (other_line_is_passed_over _ _ _ Hb Hi).
    apply (IH Hothers). }
  split; [apply G|].
  rewrite <- (app_nil_r others). rewrite G. reflexivity.
Qed.

(** An assignment, an indented import with a trailing backslash and a
    call, before an import. *)
Lemma other_lines_before_import_sys :
  find_imports_from_lines
    ([(1, "x = 1"); (2, "    import os, \"); (3, "f(")] ++ [(4, "import sys")])
  = find_imports_from_lines [(4, "import sys")]
  /\ find_imports_from_lines [(1, "x = 1"); (2, "    import os, \"); (3, "f(")]
     = Gen [] Returned.
Proof.
  apply (other_lines_are_passed_over
           [(1, "x = 1"); (2, "    import os, \"); (3, "f(")]
           [(4, "import sys")]).
  repeat constructor.
Defined.



(** X4: a comment block -- a line that opens it, lines that do not end in
    a triple quote, and a line that does -- is skipped as a whole: no line
    of it is in a group, even one that starts with [import ].  When the
    line after the block opens no comment block itself, the grouper goes
    on with that line as if the block were not there; when nothing comes
    after the block, the grouper stops without an error. *)
Theorem comment_block_is_skipped
    (number : nat) (line : string) (body : iterator)
    (closing_number : nat) (closing : string) :
  opens_comment_block line = true ->
  Forall (fun p => endswith (snd p) triple_quotes = false) body ->
  endswith closing triple_quotes = true ->
  (forall (next_number : nat) (next_line : string) (rest : iterator),
      opens_comment_block next_line = false ->
      find_imports_from_lines
        ((number, line) :: body
           ++ (closing_number, closing) :: (next_number, next_line) :: rest)
      = find_imports_from_lines ((next_number, next_line) :: rest))
  /\ find_imports_from_lines
       ((number, line) :: body ++ [(closing_number, closing)])
     = Gen [] Returned.
Proof.
  intros Hblock Hbody Hclosing. split.
  - intros next_number next_line rest Hnext.
    unfold find_imports_from_lines. f_equal.
    rewrite find_imports_rounds_round. cbn [one_round].
    rewrite Hblock, (skip_comment_block_closes body _ _ _ Hbody Hclosing).
    rewrite (find_imports_rounds_round ((next_number, next_line) :: rest)).
    cbn [one_round]. rewrite Hnext. reflexivity.
  - unfold find_imports_from_lines.
    rewrite find_imports_rounds_round. cbn [one_round].
    rewrite Hblock, (skip_comment_block_closes body _ _ _ Hbody Hclosing).
    reflexivity.
Qed.

(** A docstring with an import inside, before a real import. *)
Lemma comment_block_with_an_import_inside :
  (forall (next_number : nat) (next_line : string) (rest : iterator),
      opens_comment_block next_line = false ->
      find_imports_from_lines
        ((1, triple_quotes) :: [(2, "import os")]
           ++ (3, triple_quotes) :: (next_number, next_line) :: rest)
      = find_imports_from_lines ((next_number, next_line) :: rest))
  /\ find_imports_from_lines
       ((1, triple_quotes) :: [(2, "import os")] ++ [(3, triple_quotes)])
     = Gen [] Returned.
Proof.
  apply (comment_block_is_skipped 1 triple_quotes [(2, "import os")]
           3 triple_quotes);
    solve [reflexivity | repeat constructor].
Defined.

Lemma skip_comment_block_suffix (inside_comment : bool) (it it' : iterator) :
  skip_comment_block inside_comment it = Some it' ->
  exists skipped, it = skipped ++ it'.
Proof.
  revert inside_comment.
  induction it as [|[n l] it IH]; intros [|] H; simpl in H;
    try discriminate.
  - injection H as <-. exists []. reflexivity.
  - destruct (IH _ H) as [skipped ->]. exists ((n, l) :: skipped). reflexivity.
  - injection H as <-. exists []. reflexivity.
Qed.

Lemma until_closing_parenthesis_takes
    (it : iterator) (line : string) (ns : list nat) (ls : list string)
    (line' : string) (ns' : list nat) (ls' : list string) (it' : iterator) :
  until_closing_parenthesis line ns ls it = Ok (line', ns', ls', it') ->
  exists taken,
    it = taken ++ it' /\ ns' = ns ++ map fst taken /\ ls' = ls ++ map snd taken.
Proof.
  revert line ns ls.
  induction it as [|[n l] it IH]; intros line ns ls H; simpl in H;
    destruct (negb (contains ")" line)); try discriminate.
  - injection H as <- <- <- <-. exists []. rewrite !app_nil_r. auto.
  - destruct (IH _ _ _ H) as [taken [-> [-> ->]]]. exists ((n, l) :: taken).
    rewrite <- !app_assoc. auto.
  - injection H as <- <- <- <-. exists []. rewrite !app_nil_r. auto.
Qed.

Lemma while_escaped_takes
    (it : iterator) (line : string) (ns : list nat) (ls : list string)
    (line' : string) (ns' : list nat) (ls' : list string) (it' : iterator) :
  while_escaped line ns ls it = Ok (line', ns', ls', it') ->
  exists taken,
    it = taken ++ it' /\ ns' = ns ++ map fst taken /\ ls' = ls ++ map snd taken.
Proof.
  revert line ns ls.
  induction it as [|[n l] it IH]; intros line ns ls H; simpl in H;
    destruct (endswith line "\"); try discriminate.
  - injection H as <- <- <- <-. exists []. rewrite !app_nil_r. auto.
  - destruct (IH _ _ _ H) as [taken [-> [-> ->]]]. exists ((n, l) :: taken).
    rewrite <- !app_assoc. auto.
  - injection H as <- <- <- <-. exists []. rewrite !app_nil_r. auto.
Qed.

Lemma gather_takes (number : nat) (line : string) (it : iterator)
    (import_lines : list string) (line_numbers : list nat) (it' : iterator) :
  gather number line it = Yield (import_lines, line_numbers) it' ->
  exists taken,
    it = taken ++ it'
    /\ line_numbers = number :: map fst taken
    /\ import_lines = line :: map snd taken.
Proof.
  unfold gather. destruct (has_import line); [|discriminate].
  cbn [negb]. intros H.
  destruct (contains "(" line && negb (contains ")" line)).
  - destruct (until_closing_parenthesis line [number] [line] it)
      as [[[[l1 ns1] ls1] i1]|e] eqn:E1; cbn [bind] in H; [|discriminate].
    destruct (until_closing_parenthesis_takes _ _ _ _ _ _ _ _ E1)
      as [t1 [-> [-> ->]]].
    destruct (endswith l1 "\").
    + destruct (while_escaped l1 _ _ i1)
        as [[[[l2 ns2] ls2] i2]|e] eqn:E2; [|discriminate].
      destruct (while_escaped_takes _ _ _ _ _ _ _ _ E2) as [t2 [-> [-> ->]]].
      injection H as <- <- <-. exists (t1 ++ t2).
      rewrite !map_app, <- !app_assoc. auto.
    + injection H as <- <- <-. exists t1. auto.
  - cbn [bind] in H. destruct (endswith line "\").
    + destruct (while_escaped line [number] [line] it)
        as [[[[l2 ns2] ls2] i2]|e] eqn:E2; [|discriminate].
      destruct (while_escaped_takes _ _ _ _ _ _ _ _ E2) as [t2 [-> [-> ->]]].
      injection H as <- <- <-. exists t2. auto.
    + injection H as <- <- <-. exists []. auto.
Qed.

Lemma gather_goes_on (number : nat) (line : string) (it it' : iterator) :
  gather number line it = Continue it' -> it' = it.
Proof.
  unfold gather. destruct (has_import line); cbn [negb].
  - intros H. exfalso. revert H.
    destruct (_ <- _ ;; _) as [[[[? ?] ?] ?]|?]; discriminate.
  - intros H. injection H as <-. reflexivity.
Qed.

Lemma gather_stops (number : nat) (line : string) (it : iterator) (e : ending) :
  gather number line it = Stop e -> e = Raised StopIteration.
Proof.
  unfold gather. destruct (has_import line); cbn [negb]; [|discriminate].
  destruct (contains "(" line && negb (contains ")" line)).
  - assert (P : forall i l ns ls e',
        until_closing_parenthesis l ns ls i = Raise e' -> e' = StopIteration).
    { induction i as [|[? ?] i IH]; intros l ns ls e' H; simpl in H;
        destruct (negb (contains ")" l)); try discriminate.
      - injection H as <-. reflexivity.
      - apply (IH _ _ _ _ H). }
    assert (Q : forall i l ns ls e',
        while_escaped l ns ls i = Raise e' -> e' = StopIteration).
    { induction i as [|[? ?] i IH]; intros l ns ls e' H; simpl in H;
        destruct (endswith l "\"); try discriminate.
      - injection H as <-. reflexivity.
      - apply (IH _ _ _ _ H). }
    destruct (until_closing_parenthesis line [number] [line] it)
      as [[[[l1 ns1] ls1] i1]|e1] eqn:E1; cbn [bind].
    + destruct (endswith l1 "\"); [|discriminate].
      destruct (while_escaped l1 ns1 ls1 i1)
        as [[[[l2 ns2] ls2] i2]|e2] eqn:E2; [discriminate|].
      intros H. injection H as <-. f_equal. apply (Q _ _ _ _ _ E2).
    + intros H. injection H as <-. f_equal. apply (P _ _ _ _ _ E1).
  - cbn [bind]. destruct (endswith line "\"); [|discriminate].
    assert (Q : forall i l ns ls e',
        while_escaped l ns ls i = Raise e' -> e' = StopIteration).
    { induction i as [|[? ?] i IH]; intros l ns ls e' H; simpl in H;
        destruct (endswith l "\"); try discriminate.
      - injection H as <-. reflexivity.
      - apply (IH _ _ _ _ H). }
    destruct (while_escaped line [number] [line] it)
      as [[[[l2 ns2] ls2] i2]|e2] eqn:E2; [discriminate|].
    intros H. injection H as <-. f_equal. apply (Q _ _ _ _ _ E2).
Qed.

Lemma combine_fst_snd {A B : Type} (l : list (A * B)) :
  combine (map fst l) (map snd l) = l.
Proof.
  induction l as [|[a b] l IH]; [reflexivity|]. cbn. rewrite IH. reflexivity.
Qed.

(** What one round does to the iterator: the lines of a group it yields
    are a run of the lines that were read, and what is left is what comes
    after them. *)
Lemma one_round_takes (it : iterator) :
  match one_round it with
  | Stop e => e = Returned \/ e = Raised StopIteration
  | Continue it' => exists skipped, it = skipped ++ it'
  | Yield (import_lines, line_numbers) it' =>
      exists skipped,
        it = skipped ++ combine line_numbers import_lines ++ it'
        /\ List.length import_lines = List.length line_numbers
        /\ import_lines <> []
  end.
Proof.
  assert (G : forall n l i skipped,
    it = skipped ++ (n, l) :: i ->
    match gather n l i with
    | Stop e => e = Returned \/ e = Raised StopIteration
    | Continue it' => exists skipped, it = skipped ++ it'
    | Yield (import_lines, line_numbers) it' =>
        exists skipped,
          it = skipped ++ combine line_numbers import_lines ++ it'
          /\ List.length import_lines = List.length line_numbers
          /\ import_lines <> []
    end).
  { intros n l i skipped ->.
    destruct (gather n l i) as [e|it'|[ls ns] it'] eqn:E.
    - right. apply (gather_stops _ _ _ _ E).
    - apply gather_goes_on in E as ->. exists (skipped ++ [(n, l)]).
      rewrite <- app_assoc. reflexivity.
    - destruct (gather_takes _ _ _ _ _ _ E) as [taken [-> [-> ->]]].
      exists skipped. repeat split.
      + cbn [combine]. rewrite combine_fst_snd. reflexivity.
      + cbn. rewrite !length_map. reflexivity.
      + discriminate. }
  destruct it as [|[n l] it]; cbn [one_round]; [left; reflexivity|].
  destruct (opens_comment_block l).
  - destruct (skip_comment_block true it) as [[|[n1 l1] it1]|] eqn:E;
      [left; reflexivity| |left; reflexivity].
    destruct (skip_comment_block_suffix _ _ _ E) as [skipped ->].
    apply (G n1 l1 it1 ((n, l) :: skipped)). reflexivity.
  - apply (G n l it []). reflexivity.
Qed.

(** The lines of a yielded group, with their numbers, as a part of the
    iterator. *)
Lemma yielded_group_is_a_run
    (it : iterator) (import_lines : list string) (line_numbers : list nat) :
  In (import_lines, line_numbers) (yielded (find_imports_from_lines it)) ->
  List.length import_lines = List.length line_numbers
  /\ import_lines <> []
  /\ exists before after,
       it = before ++ combine line_numbers import_lines ++ after.
Proof.
  unfold find_imports_from_lines. cbn [generator yielded].
  funelim (find_imports_rounds it).
  - intros [].
  - intros Hin.
    pose proof (one_round_takes it) as T.
    match goal with E : one_round it = Continue _ |- _ => rewrite E in T end.
    destruct T as [skipped ->].
    match goal with IH : forall _ _, In _ _ -> _ |- _ =>
      destruct (IH _ _ Hin) as [Hlen [Hne [before [after ->]]]] end.
    repeat split; auto. exists (skipped ++ before), after.
    rewrite <- app_assoc. reflexivity.
  - cbn [yield yielded]. intros Hin.
    pose proof (one_round_takes it) as T.
    match goal with E : one_round it = Yield _ _ |- _ => rewrite E in T end.
    destruct group as [ls ns].
    destruct T as [skipped [-> [Hlen Hne]]].
    destruct Hin as [E|Hin].
    + injection E as -> ->. repeat split; auto. exists skipped, it'.
      reflexivity.
    + match goal with IH : forall _ _, In _ _ -> _ |- _ =>
        destruct (IH _ _ Hin) as [Hlen' [Hne' [before [after ->]]]] end.
      repeat split; auto.
      exists (skipped ++ combine ns ls ++ before), after.
      rewrite <- !app_assoc. reflexivity.
Qed.

(** X5: every group that the grouper yields has as many line numbers as
    lines, and at least one; its lines with their numbers are a run of
    consecutive items of the iterator, in the iterator's order: no line is
    made up, renumbered or moved. *)
Theorem groups_are_runs_of_the_input
    (it : iterator) (import_lines : list string) (line_numbers : list nat) :
  In (import_lines, line_numbers) (yielded (find_imports_from_lines it)) ->
  List.length import_lines = List.length line_numbers
  /\ import_lines <> []
  /\ exists before after,
       it = before ++ combine line_numbers import_lines ++ after.
Proof. apply yielded_group_is_a_run. Qed.

(** The second group of a small file. *)
Lemma group_of_a_small_file :
  List.length ["from a import (b,"; "    c)"] = List.length [3; 4]
  /\ ["from a import (b,"; "    c)"] <> []
  /\ exists before after,
       [(1, "import os"); (2, ""); (3, "from a import (b,"); (4, "    c)")]
       = before ++ combine [3; 4] ["from a import (b,"; "    c)"] ++ after.
Proof.
  apply (groups_are_runs_of_the_input
           [(1, "import os"); (2, ""); (3, "from a import (b,"); (4, "    c)")]
           ["from a import (b,"; "    c)"] [3; 4]).
  right. left. reflexivity.
Defined.

(** X6: the grouper ends in one of two ways only: it returns, or the
    iterator is exhausted inside a continuation and the caller gets the
    [RuntimeError] of the escaping [StopIteration]; no other exception
    leaves it. *)
Theorem grouper_ends_by_return_or_exhaustion (it : iterator) :
  ended (find_imports_rounds it) = Returned
  /\ ended (find_imports_from_lines it) = Returned
  \/ ended (find_imports_rounds it) = Raised StopIteration
     /\ ended (find_imports_from_lines it) = Raised RuntimeError.
Proof.
  unfold find_imports_from_lines. cbn [generator ended].
  funelim (find_imports_rounds it).
  - pose proof (one_round_takes it) as T.
    match goal with E : one_round it = Stop _ |- _ => rewrite E in T end.
    destruct T as [-> | ->]; [left|right]; split; reflexivity.
  - assumption.
  - cbn [yield ended]. assumption.
Qed.

(** * Further properties of the tokenizer *)

Lemma plain_append (a b : string) : plain (a ++ b) = plain a && plain b.
Proof.
  induction a as [|c a IH]; simpl; [reflexivity|].
  rewrite IH. apply andb_assoc.
Qed.

Lemma is_comment_append (a b : string) :
  is_comment a = true -> is_comment (a ++ b)%string = true.
Proof.
  destruct a as [|c a]; [discriminate|].
  change (String c a ++ b)%string with (String c (a ++ b)).
  unfold is_comment. rewrite !startswith_char. auto.
Qed.

Lemma flush_well_formed (word : string) (rest : list string) :
  is_comment word = true \/ plain word = true ->
  Forall (fun w => well_formed_word w = true) rest ->
  Forall (fun w => well_formed_word w = true) (flush word rest).
Proof.
  intros Hw Hrest. destruct word as [|c w]; [exact Hrest|].
  cbn [flush]. constructor; [|exact Hrest].
  unfold well_formed_word. cbn [String.eqb negb andb].
  destruct Hw as [-> | ->]; [reflexivity|apply orb_true_r].
Qed.

Lemma re_split_words_well_formed (line : string) (incomment : bool) (word : string) :
  (if incomment then is_comment word = true else plain word = true) ->
  Forall (fun w => well_formed_word w = true)
    (re_split_words incomment word line).
Proof.
  revert incomment word.
  induction line as [|c line IH]; intros incomment word Hw.
  - cbn [re_split_words]. apply flush_well_formed; [|constructor].
    destruct incomment; auto.
  - cbn [re_split_words]. destruct incomment.
    + destruct (Ascii.eqb c newline) eqn:En.
      * apply flush_well_formed; [left; exact Hw|].
        apply (IH false). apply Ascii.eqb_eq in En. subst c. reflexivity.
      * apply (IH true). apply is_comment_append. exact Hw.
    + destruct (Ascii.eqb c " ") eqn:E1.
      { apply flush_well_formed; [right; exact Hw|]. apply (IH false).
        reflexivity. }
      destruct (Ascii.eqb c "(" || Ascii.eqb c ")") eqn:E2.
      { apply flush_well_formed; [right; exact Hw|]. apply (IH false).
        reflexivity. }
      destruct (Ascii.eqb c "," || Ascii.eqb c "\") eqn:E3.
      { apply flush_well_formed; [right; exact Hw|]. constructor.
        - apply orb_prop in E3 as [E|E]; apply Ascii.eqb_eq in E; subst c;
            reflexivity.
        - apply (IH false). reflexivity. }
      destruct (Ascii.eqb c "#") eqn:E4.
      { apply flush_well_formed; [right; exact Hw|]. apply (IH true).
        apply Ascii.eqb_eq in E4. subst c. reflexivity. }
      apply (IH false). rewrite plain_append, Hw. cbn [plain andb].
      unfold is_special. apply orb_false_elim in E2 as [-> ->].
      apply orb_false_elim in E3 as [-> ->]. rewrite E1, E4. reflexivity.
Qed.

(** X8: no word of a line is empty, and every word is a comment (it starts
    with [#]), a comma, a backslash, or a text without blank, parenthesis,
    comma, backslash and [#]. *)
Theorem words_are_well_formed (line : string) :
  Forall (fun w => well_formed_word w = true) (words_of_line line).
Proof. apply (re_split_words_well_formed line false). reflexivity. Qed.




Lemma list_split_from_at (split : Token) (a b segment : list Token) :
  ~ In split a ->
  list_split_from segment (a ++ split :: b) split
  = (segment ++ a) :: list_split_from [] b split.
Proof.
  revert segment. induction a as [|i a IH]; intros segment H.
  - cbn [app list_split_from]. rewrite String.eqb_refl, app_nil_r. reflexivity.
  - cbn [app list_split_from].
    destruct (String.eqb_spec i split) as [->|_].
    + exfalso. apply H. left. reflexivity.
    + rewrite IH by (intros Hin; apply H; right; exact Hin).
      rewrite <- app_assoc. reflexivity.
Qed.

(** X9: when the tokens of the lines hold no backslash, and there is at
    least one token, the tokenizer returns them as they are. *)
Theorem tokens_without_backslash
    (import_lines : list string) (first : Token) (others : list Token) :
  all_line_tokens import_lines = Ok (first :: others) ->
  ~ In "\" (first :: others) ->
  tokenize_import_lines import_lines = Ok (first :: others).
Proof.
  intros Hall Hno. unfold tokenize_import_lines, list_split.
  rewrite Hall. cbn [bind].
  rewrite (list_split_from_without _ _ _ Hno). reflexivity.
Qed.

(** The lines [from a import (b,  # keep] and [    c)]. *)
Lemma tokens_without_backslash_of_two_lines :
  tokenize_import_lines ["from a import (b,  # keep"; "    c)"]
  = Ok ["from"; "a"; "import"; "b"; "# keep"; ","; "c"].
Proof.
  apply (tokens_without_backslash ["from a import (b,  # keep"; "    c)"]
           "from" ["a"; "import"; "b"; "# keep"; ","; "c"]);
    [reflexivity|].
  simpl. intros H. repeat destruct H as [H|H]; try discriminate. exact H.
Defined.

(** X10: when the tokens of the lines hold one backslash, with a token
    before it and a token after it, the tokenizer returns them with the
    backslash taken out and the two tokens around it joined into one. *)
Theorem tokens_around_a_backslash_are_joined
    (import_lines : list string)
    (before : list Token) (left_token right_token : Token)
    (after : list Token) :
  all_line_tokens import_lines
    = Ok (before ++ left_token :: "\" :: right_token :: after) ->
  ~ In "\" (before ++ [left_token]) ->
  ~ In "\" (right_token :: after) ->
  tokenize_import_lines import_lines
  = Ok (before ++ (left_token ++ right_token)%string :: after).
Proof.
  intros Hall Hb Ha. unfold tokenize_import_lines, list_split.
  rewrite Hall. cbn [bind].
  change (before ++ left_token :: "\" :: right_token :: after)
    with (before ++ [left_token] ++ "\" :: right_token :: after).
  rewrite app_assoc, (list_split_from_at _ _ _ _ Hb).
  rewrite (list_split_from_without _ _ _ Ha). cbn [app join_segments].
  assert (First : forall first others,
    before ++ [left_token] = first :: others ->
    join_segments [EmptyString]
      [before ++ [left_token]; right_token :: after]
    = Ok (before ++ (left_token ++ right_token)%string :: after)).
  { intros first others E. cbn [join_segments]. rewrite E.
    change (getitem (first :: others) 0) with (Ok first).
    cbn [bind from1 tl].
    change (add_to_last [EmptyString] first) with (Ok [first]).
    cbn [bind app]. rewrite <- E.
    change (getitem (right_token :: after) 0) with (Ok right_token).
    cbn [bind]. rewrite add_to_last_snoc. cbn [bind tl].
    rewrite <- app_assoc. reflexivity. }
  destruct before as [|b before]; eapply First; reflexivity.
Qed.

(** The module path [a.b] broken after its dot. *)
Lemma module_path_broken_after_the_dot :
  tokenize_import_lines ["from a.\"; "    b import c"]
  = Ok (["from"] ++ ("a." ++ "b")%string :: ["import"; "c"]).
Proof.
  apply (tokens_around_a_backslash_are_joined
           ["from a.\"; "    b import c"] ["from"] "a." "b" ["import"; "c"]);
    [reflexivity| |];
    simpl; intros H; repeat destruct H as [H|H]; try discriminate; exact H.
Defined.

Lemma join_segments_fails (segments : list (list Token)) (tokens : list Token) :
  tokens <> [] ->
  (forall e, join_segments tokens segments = Raise e -> e = IndexError)
  /\ (forall result, join_segments tokens segments = Ok result -> result <> [])
  /\ (In [] segments -> join_segments tokens segments = Raise IndexError).
Proof.
  revert tokens.
  induction segments as [|segment segments IH]; intros tokens Hne.
  - cbn [join_segments]. repeat split.
    + discriminate.
    + intros result H. injection H as <-. exact Hne.
    + intros [].
  - cbn [join_segments].
    destruct segment as [|word segment].
    + change (getitem (@nil Token) 0) with (@Raise Token IndexError).
      cbn [bind]. repeat split.
      * intros e H. injection H as <-. reflexivity.
      * discriminate.
    + change (getitem (word :: segment) 0) with (Ok word). cbn [bind].
      destruct (list_end_cases tokens) as [->|[pre [x ->]]]; [contradiction|].
      rewrite add_to_last_snoc. cbn [bind from1 tl].
      destruct (IH ((pre ++ [(x ++ word)%string]) ++ segment))
        as [He [Hok Hin]]; [destruct pre; discriminate|].
      repeat split; auto.
      intros [E|E]; [discriminate|auto].
Qed.

Lemma list_split_from_empty_segment
    (a b segment : list Token) (split : Token) :
  In [] (list_split_from segment (a ++ split :: split :: b) split).
Proof.
  revert segment. induction a as [|i a IH]; intros segment.
  - cbn [app list_split_from]. rewrite String.eqb_refl.
    right. left. reflexivity.
  - cbn [app list_split_from]. destruct (String.eqb i split).
    + right. apply IH.
    + apply IH.
Qed.

(** X11: the tokenizer never returns an empty list of tokens, and the only
    exception it raises is [IndexError]; it raises it when the tokens of
    the lines start with a backslash or hold two backslashes in a row (the
    segment between them is empty, and [segment[0]] is read). *)
Theorem tokenizer_returns_tokens_or_raises_index_error
    (import_lines : list string) :
  ((exists first others,
       tokenize_import_lines import_lines = Ok (first :: others))
   \/ tokenize_import_lines import_lines = Raise IndexError)
  /\ (forall tokens,
        all_line_tokens import_lines = Ok ("\" :: tokens) ->
        tokenize_import_lines import_lines = Raise IndexError)
  /\ (forall before after,
        all_line_tokens import_lines = Ok (before ++ "\" :: "\" :: after) ->
        tokenize_import_lines import_lines = Raise IndexError).
Proof.
  unfold tokenize_import_lines.
  destruct (all_line_tokens_total import_lines) as [raw ->]. cbn [bind].
  destruct (join_segments_fails (list_split raw "\") [EmptyString])
    as [He [Hok Hin]]; [discriminate|].
  split; [|split].
  - destruct (join_segments [EmptyString] (list_split raw "\"))
      as [[|t ts]|e] eqn:E.
    + exfalso. apply (Hok [] eq_refl). reflexivity.
    + left. exists t, ts. reflexivity.
    + right. rewrite (He e eq_refl). reflexivity.
  - intros tokens H. injection H as ->. apply Hin.
    unfold list_split. cbn [list_split_from]. left. reflexivity.
  - intros before after H. injection H as ->. apply Hin.
    apply list_split_from_empty_segment.
Qed.

(** * Further properties of the statement parser *)

Lemma index_without_char (c : ascii) (sep s : string) :
  has_char c s = false -> index 0 (String c sep) s = None.
Proof.
  induction s as [|a s IH]; intros H; [reflexivity|].
  pose proof (prefix_no_char c sep s EmptyString a H) as P.
  rewrite append_empty_r in P.
  simpl in H. apply orb_false_elim in H as [_ Hs].
  cbn [index]. rewrite P, (IH Hs). reflexivity.
Qed.

Lemma contains_without_char (c : ascii) (sep s : string) :
  has_char c s = false -> contains (String c sep) s = false.
Proof.
  intros H. unfold contains, find. rewrite (index_without_char _ _ _ H).
  reflexivity.
Qed.

(** The statement of a stem without blank and without leading dot. *)
Lemma parse_plain_stem
    (stem : string) (line_numbers : list nat) (comments : list Token) :
  has_char " " stem = false ->
  startswith stem "." = false ->
  parse_import_statement stem line_numbers comments
  = Ok (Statement line_numbers stem [] comments).
Proof.
  intros Hblank Hdot. unfold parse_import_statement.
  rewrite Hdot.
  change " as " with (String " " "as ").
  rewrite (contains_without_char " " "as " stem Hblank).
  unfold rsplit1. destruct (rsplit_last "." stem) as [[before after]|];
    cbn [bind andb]; rewrite (contains_without_char " " "as " stem Hblank);
    reflexivity.
Qed.

(** X13: a stem without blank that does not start with a dot -- a module
    name or a dotted path such as [a.b.c] -- is kept whole: the statement
    has that stem and no leaf, and [parse_import_statement] does not
    raise. *)
Theorem plain_stem_is_kept
    (stem : string) (line_numbers : list nat) (comments : list Token) :
  has_char " " stem = false ->
  startswith stem "." = false ->
  parse_import_statement stem line_numbers comments
  = Ok (Statement line_numbers stem [] comments).
Proof. apply parse_plain_stem. Qed.

(** The dotted path [os.path]. *)
Lemma plain_stem_os_path :
  parse_import_statement "os.path" [4] ["# used below"]
  = Ok (Statement [4] "os.path" [] ["# used below"]).
Proof.
  apply (plain_stem_is_kept "os.path" [4] ["# used below"]); reflexivity.
Defined.

(** X14: a stem [path.name as alias] -- the path without blank, not empty
    and not starting with a dot, the name and the alias without dot, the
    name without blank -- is split at its last dot: the statement has the
    path as its stem and the one leaf made from [name as alias]. *)
Theorem aliased_last_segment_becomes_a_leaf
    (path name alias : string)
    (line_numbers : list nat) (comments : list Token) :
  path <> EmptyString ->
  startswith path "." = false ->
  has_char " " path = false ->
  has_char "." name = false ->
  has_char " " name = false ->
  has_char "." alias = false ->
  parse_import_statement (path ++ "." ++ name ++ " as " ++ alias)
    line_numbers comments
  = Ok (Statement line_numbers path
          [mkImportLeaf (name ++ " as " ++ alias) []] comments).
Proof.
  intros Hne Hstart Hpath Hname Hblank Halias.
  unfold parse_import_statement.
  assert (S1 : startswith (path ++ "." ++ name ++ " as " ++ alias) "." = false).
  { destruct path as [|a p]; [contradiction|].
    change (String a p ++ "." ++ name ++ " as " ++ alias)%string
      with (String a (p ++ "." ++ name ++ " as " ++ alias)).
    rewrite startswith_char in *. exact Hstart. }
  rewrite S1.
  assert (Hafter : has_char "." (name ++ " as " ++ alias) = false).
  { rewrite has_char_append, Hname. cbn. exact Halias. }
  unfold rsplit1.
  change (path ++ "." ++ name ++ " as " ++ alias)%string
    with (path ++ String "." (name ++ " as " ++ alias))%string.
  rewrite (rsplit_last_append _ _ _ Hafter).
  assert (C : contains " as " (path ++ String "." (name ++ " as " ++ alias))
              = true).
  { replace (path ++ String "." (name ++ " as " ++ alias))%string
      with ((path ++ "." ++ name) ++ String " " "as " ++ alias)%string
      by (rewrite !append_assoc; reflexivity).
    apply contains_after_no_char.
    rewrite !has_char_append, Hpath, Hblank. reflexivity. }
  rewrite C. cbn [bind]. rewrite andb_false_r. reflexivity.
Qed.

(** The stem [os.path as p]. *)
Lemma aliased_os_path :
  parse_import_statement ("os" ++ "." ++ "path" ++ " as " ++ "p") [1] []
  = Ok (Statement [1] "os" [mkImportLeaf ("path" ++ " as " ++ "p") []] []).
Proof.
  apply (aliased_last_segment_becomes_a_leaf "os" "path" "p" [1] []);
    solve [reflexivity | discriminate].
Defined.

(** X15: a stem made of leading dots and one more segment without dot --
    [.foo], [..foo], or the dots alone -- gives the statement whose stem is
    the dots and whose one leaf is made from that segment, also when the
    segment is empty. *)
Theorem relative_stem_gives_one_leaf
    (dots name : string) (line_numbers : list nat) (comments : list Token) :
  dots <> EmptyString -> all_dots dots = true ->
  has_char "." name = false ->
  parse_import_statement (dots ++ name) line_numbers comments
  = Ok (Statement line_numbers dots [mkImportLeaf name []] comments).
Proof.
  intros Hne Hdots Hname. unfold parse_import_statement.
  assert (S1 : startswith (dots ++ name) "." = true).
  { destruct dots as [|a d]; [contradiction|].
    simpl in Hdots. apply andb_prop in Hdots as [Ha _].
    change (String a d ++ name)%string with (String a (d ++ name)).
    rewrite startswith_char. exact Ha. }
  rewrite S1.
  assert (S2 : startswith name "." = false).
  { destruct name as [|a n]; [reflexivity|].
    rewrite startswith_char. simpl in Hname.
    apply orb_false_elim in Hname as [Ha _]. exact Ha. }
  unfold DOTS_findall. rewrite (leading_dots_append _ _ Hdots S2).
  change (getitem [(dots, name)] 0) with (Ok (dots, name)).
  cbn [bind]. unfold rsplit1. rewrite (rsplit_last_none _ _ Hname).
  cbn [bind]. rewrite andb_false_r. reflexivity.
Qed.

(** The stem [..] alone. *)
Lemma relative_stem_of_two_dots :
  parse_import_statement (".." ++ "") [1] []
  = Ok (Statement [1] ".." [mkImportLeaf "" []] []).
Proof.
  apply (relative_stem_gives_one_leaf ".." "" [1] []);
    solve [reflexivity | discriminate].
Defined.

Lemma split_aux_at_separator (c : ascii) (sep cur s rest : string) :
  has_char c s = false ->
  split_aux (String c sep) 0 cur (s ++ String c sep ++ rest)
  = (cur ++ s)%string :: split_aux (String c sep) 0 EmptyString rest.
Proof.
  intros Hs. revert cur. induction s as [|a s IH]; intros cur.
  - change (EmptyString ++ String c sep ++ rest)%string
      with (String c (sep ++ rest)).
    cbn [split_aux].
    change (String c (sep ++ rest)) with (String c sep ++ rest)%string.
    rewrite prefix_refl_append, append_empty_r.
    replace (String.length (String c sep) - 1)%nat
      with (String.length sep) by (simpl; lia).
    rewrite split_aux_skip. reflexivity.
  - pose proof (prefix_no_char c sep s (String c sep ++ rest) a Hs) as P.
    change ((String a s ++ String c sep ++ rest)%string)
      with (String a (s ++ String c sep ++ rest)) in *.
    cbn [split_aux]. rewrite P.
    simpl in Hs. apply orb_false_elim in Hs as [_ Hs].
    rewrite (IH Hs), append_assoc. reflexivity.
Qed.

(** X16: a stem with two [ as ] and no dot, [name as first as second] with
    the three parts without blank, makes [parse_import_statement] raise
    [ValueError]: the split gives three pieces for two names. *)
Theorem two_aliases_raise
    (name first second : string)
    (line_numbers : list nat) (comments : list Token) :
  has_char "." name = false -> has_char " " name = false ->
  has_char "." first = false -> has_char " " first = false ->
  has_char "." second = false -> has_char " " second = false ->
  parse_import_statement (name ++ " as " ++ first ++ " as " ++ second)
    line_numbers comments
  = Raise ValueError.
Proof.
  intros Hd1 Hb1 Hd2 Hb2 Hd3 Hb3. unfold parse_import_statement.
  rewrite (startswith_no_char "." name (" as " ++ first ++ " as " ++ second)
             Hd1 eq_refl).
  assert (Hstem : has_char "." (name ++ " as " ++ first ++ " as " ++ second)
                  = false).
  { rewrite has_char_append, Hd1. cbn.
    rewrite has_char_append, Hd2. cbn. exact Hd3. }
  unfold rsplit1. rewrite (rsplit_last_none _ _ Hstem). cbn [bind].
  change (name ++ " as " ++ first ++ " as " ++ second)%string
    with (name ++ String " " "as " ++ first ++ String " " "as " ++ second)%string.
  rewrite (contains_after_no_char " " "as " name _ Hb1). cbn [andb].
  unfold split.
  rewrite (split_aux_at_separator " " "as " _ name _ Hb1).
  rewrite (split_aux_at_separator " " "as " _ first _ Hb2).
  rewrite (split_aux_no_char " " "as " _ _ Hb3).
  reflexivity.
Qed.

(** The stem [a as b as c]. *)
Lemma two_aliases_a_b_c :
  parse_import_statement ("a" ++ " as " ++ "b" ++ " as " ++ "c") [1] []
  = Raise ValueError.
Proof.
  apply (two_aliases_raise "a" "b" "c" [1] []); reflexivity.
Defined.





(** X19: when every group of the iterable is parsed without an exception,
    [parse_statements] yields the statements of all the groups, group after
    group, and then ends as the iterable ended: by returning when the
    iterable was exhausted, or with the exception that the iterable raised
    (so the [RuntimeError] of a grouper that ran out of lines reaches the
    caller after the statements of the complete groups). *)
Theorem statements_of_all_groups (iterable : gen LineGroup) :
  (forall group, In group (yielded iterable) ->
                 ended (parse_group group) = Returned) ->
  parse_statements iterable
  = Gen (flat_map (fun group => yielded (parse_group group)) (yielded iterable))
        match ended iterable with
        | Raised StopIteration => Returned
        | last => last
        end.
Proof.
  destruct iterable as [groups last]. cbn [yielded ended]. intros H.
  unfold parse_statements. cbn [yielded ended].
  assert (G : parse_groups groups last
              = Gen (flat_map (fun group => yielded (parse_group group)) groups)
                    match last with
                    | Raised StopIteration => Returned
                    | _ => last
                    end).
  { induction groups as [|g groups IH]; [reflexivity|].
    cbn [parse_groups flat_map]. unfold and_then.
    rewrite (H g (or_introl eq_refl)).
    rewrite IH by (intros g' Hg'; apply H; right; exact Hg').
    reflexivity. }
  rewrite G. unfold generator. cbn [yielded ended]. f_equal.
  destruct last as [|[]]; reflexivity.
Qed.

(** The groups of a file that ends inside the parentheses of its second
    statement. *)
Lemma statements_before_the_end_of_the_input :
  parse_statements
    (find_imports_from_lines [(1, "import os"); (2, "from a import (b,")])
  = Gen (flat_map (fun group => yielded (parse_group group))
           (yielded (find_imports_from_lines
                       [(1, "import os"); (2, "from a import (b,")])))
        match ended (find_imports_from_lines
                       [(1, "import os"); (2, "from a import (b,")]) with
        | Raised StopIteration => Returned
        | last => last
        end.
Proof.
  apply (statements_of_all_groups
           (find_imports_from_lines
              [(1, "import os"); (2, "from a import (b,")])).
  intros group [<-|[]]. reflexivity.
Defined.

(** * From a line to its statements *)

Lemma is_special_false (c : ascii) :
  is_special c = false ->
  Ascii.eqb c " " = false /\ Ascii.eqb c "(" = false /\ Ascii.eqb c ")" = false
  /\ Ascii.eqb c "," = false /\ Ascii.eqb c "\" = false
  /\ Ascii.eqb c "#" = false.
Proof.
  unfold is_special. intros H.
  repeat (apply orb_false_elim in H as [H ?]). auto 10.
Qed.

Lemma re_split_words_plain (s word rest : string) :
  plain s = true ->
  re_split_words false word (s ++ rest)
  = re_split_words false (word ++ s) rest.
Proof.
  revert word. induction s as [|c s IH]; intros word H.
  - rewrite append_empty_r. reflexivity.
  - cbn [plain] in H. apply andb_prop in H as [Hc Hs].
    apply negb_true_iff in Hc.
    destruct (is_special_false c Hc) as [E1 [E2 [E3 [E4 [E5 E6]]]]].
    change (String c s ++ rest)%string with (String c (s ++ rest)).
    cbn [re_split_words]. rewrite E1, E2, E3, E4, E5, E6. cbn [orb].
    rewrite (IH _ Hs), append_assoc. reflexivity.
Qed.

Lemma is_name_parts (s : string) :
  is_name s = true ->
  plain s = true /\ is_comment s = false /\ s <> "," /\ s <> "\"
  /\ s <> EmptyString /\ has_char " " s = false
  /\ forall rest, flush s rest = s :: rest.
Proof.
  unfold is_name. intros H. apply andb_prop in H as [Hne Hp].
  destruct s as [|c s]; [discriminate|].
  cbn [plain] in Hp. apply andb_prop in Hp as [Hc Hs].
  apply negb_true_iff in Hc.
  destruct (is_special_false c Hc) as [E1 [E2 [E3 [E4 [E5 E6]]]]].
  repeat split.
  - cbn [plain]. rewrite Hc, Hs. reflexivity.
  - unfold is_comment. rewrite startswith_char. exact E6.
  - intros E. injection E as -> _. discriminate.
  - intros E. injection E as -> _. discriminate.
  - discriminate.
  - cbn [has_char]. rewrite E1. cbn [orb].
    clear - Hs. induction s as [|a s IH]; [reflexivity|].
    cbn [plain] in Hs. apply andb_prop in Hs as [Ha Hs].
    apply negb_true_iff in Ha.
    destruct (is_special_false a Ha) as [E1 _].
    cbn [has_char]. rewrite E1. exact (IH Hs).
Qed.

Lemma words_of_joined_names (names : list string) :
  Forall (fun s => is_name s = true) names ->
  re_split_words false EmptyString (joined_names names)
  = comma_separated names.
Proof.
  induction names as [|name rest IH]; intros H; [reflexivity|].
  inversion H as [|? ? Hn Hrest]; subst.
  destruct (is_name_parts _ Hn) as [Hp [_ [_ [_ [_ [_ Hflush]]]]]].
  cbn [joined_names comma_separated]. destruct rest as [|next rest].
  - rewrite <- (append_empty_r name) at 1.
    rewrite (re_split_words_plain _ _ _ Hp). cbn [re_split_words append].
    apply Hflush.
  - rewrite (re_split_words_plain _ _ _ Hp). cbn [append re_split_words].
    change (Ascii.eqb "," " ") with false.
    change (Ascii.eqb "," "(" || Ascii.eqb "," ")") with false.
    change (Ascii.eqb "," "," || Ascii.eqb "," "\") with true.
    change (Ascii.eqb " " " ") with true. cbv iota.
    rewrite Hflush. cbn [flush]. rewrite (IH Hrest). reflexivity.
Qed.

Lemma reassociate_without_comments (words : list string) (_tokens : list Token) :
  Forall (fun w => is_comment w = false) words ->
  reassociate (Z.of_nat (List.length _tokens)) _tokens words
  = Ok (_tokens ++ words).
Proof.
  revert _tokens. induction words as [|word words IH]; intros _tokens H.
  - rewrite app_nil_r. reflexivity.
  - inversion H as [|? ? Hw Hwords]; subst.
    cbn [reassociate]. rewrite Hw. cbn [bind].
    replace (Z.of_nat (List.length _tokens) + 1)%Z
      with (Z.of_nat (List.length (_tokens ++ [word])))
      by (rewrite length_app; simpl; lia).
    rewrite (IH _ Hwords), <- app_assoc. reflexivity.
Qed.

Lemma comma_separated_tokens (names : list string) :
  Forall (fun s => is_name s = true) names ->
  Forall (fun w => is_comment w = false) (comma_separated names)
  /\ ~ In "\" (comma_separated names)
  /\ list_split (comma_separated names) "," = map (fun n => [n]) names.
Proof.
  unfold list_split.
  induction names as [|name rest IH]; intros H.
  - repeat split; [constructor|intros []].
  - inversion H as [|? ? Hn Hrest]; subst.
    destruct (is_name_parts _ Hn) as [_ [Hc [Hcomma [Hback _]]]].
    destruct (IH Hrest) as [Hcs [Hno Hsplit]].
    cbn [comma_separated]. destruct rest as [|next rest].
    + repeat split.
      * constructor; [exact Hc|constructor].
      * intros [E|[]]. apply Hback. exact E.
      * cbn [list_split_from map app].
        destruct (String.eqb_spec name ","); [contradiction|reflexivity].
    + repeat split.
      * constructor; [exact Hc|]. constructor; [reflexivity|exact Hcs].
      * intros [E|[E|E]]; [apply Hback; exact E|discriminate|].
        apply Hno. exact E.
      * cbn [list_split_from map app].
        destruct (String.eqb_spec name ","); [contradiction|].
        cbn [String.eqb Ascii.eqb Bool.eqb]. cbn [map] in Hsplit.
        rewrite Hsplit. reflexivity.
Qed.

Lemma plain_without_special (c : ascii) (s : string) :
  is_special c = true -> plain s = true -> has_char c s = false.
Proof.
  intros Hc. induction s as [|a s IH]; intros H; [reflexivity|].
  cbn [plain] in H. apply andb_prop in H as [Ha Hs].
  cbn [has_char]. rewrite (IH Hs), orb_false_r.
  destruct (Ascii.eqb_spec a c) as [->|]; [|reflexivity].
  rewrite Hc in Ha. discriminate.
Qed.

Lemma joined_names_without (c : ascii) (names : list string) :
  is_special c = true -> Ascii.eqb "," c = false -> Ascii.eqb " " c = false ->
  Forall (fun s => is_name s = true) names ->
  has_char c (joined_names names) = false.
Proof.
  intros Hc Hcomma Hblank.
  induction names as [|name rest IH]; intros H; [reflexivity|].
  inversion H as [|? ? Hn Hrest]; subst.
  destruct (is_name_parts _ Hn) as [Hp _].
  cbn [joined_names]. destruct rest as [|next rest].
  - apply (plain_without_special _ _ Hc Hp).
  - rewrite has_char_append, (plain_without_special _ _ Hc Hp).
    cbn [append has_char orb]. rewrite Hcomma, Hblank. cbn [orb].
    apply (IH Hrest).
Qed.

Lemma substring_one_char (c : ascii) (s : string) (n : nat) :
  substring n 1 s = String c EmptyString -> has_char c s = true.
Proof.
  revert n. induction s as [|a s IH]; intros n H.
  - destruct n; discriminate.
  - destruct n as [|n]; cbn [substring] in H.
    + injection H as -> _. cbn [has_char]. rewrite Ascii.eqb_refl.
      reflexivity.
    + cbn [has_char]. rewrite (IH _ H). apply orb_true_r.
Qed.

Lemma endswith_without_char (c : ascii) (s : string) :
  has_char c s = false -> endswith s (String c EmptyString) = false.
Proof.
  intros H. unfold endswith.
  destruct (String.eqb_spec
              (substring (String.length s - String.length (String c EmptyString))
                 (String.length (String c EmptyString)) s)
              (String c EmptyString)) as [E|_]; [|apply andb_false_r].
  apply substring_one_char in E. rewrite E in H. discriminate.
Qed.

Lemma make_leaf_of_name (name : string) (tokens : list Token) :
  is_name name = true -> mkImportLeaf name tokens = Leaf name None tokens.
Proof.
  intros H. destruct (is_name_parts _ H) as [_ [_ [_ [_ [_ [Hb _]]]]]].
  unfold mkImportLeaf, split.
  change " as " with (String " " "as ").
  rewrite (split_aux_no_char " " "as " _ _ Hb). reflexivity.
Qed.

Lemma tokens_of_an_import_line (stems : list string) :
  Forall (fun s => is_name s = true) stems ->
  tokenize_import_lines [("import " ++ joined_names stems)%string]
  = Ok ("import" :: comma_separated stems).
Proof.
  intros H. destruct (comma_separated_tokens stems H) as [Hc [Hno _]].
  unfold tokenize_import_lines. cbn [all_line_tokens]. unfold line_tokens.
  change (words_of_line ("import " ++ joined_names stems))
    with ("import" :: re_split_words false EmptyString (joined_names stems)).
  rewrite (words_of_joined_names _ H).
  change (reassociate 0 [] ("import" :: comma_separated stems))
    with (reassociate (Z.of_nat (List.length (@nil Token))) []
            ("import" :: comma_separated stems)).
  rewrite reassociate_without_comments by (constructor; [reflexivity|exact Hc]).
  cbn [bind app]. rewrite app_nil_r. unfold list_split.
  rewrite list_split_from_without
    by (intros [E|E]; [discriminate|exact (Hno E)]).
  reflexivity.
Qed.

Lemma tokens_of_a_from_line (module : string) (names : list string) :
  is_name module = true ->
  Forall (fun s => is_name s = true) names ->
  tokenize_import_lines
    [("from " ++ module ++ " import " ++ joined_names names)%string]
  = Ok ("from" :: module :: "import" :: comma_separated names).
Proof.
  intros Hm H. destruct (comma_separated_tokens names H) as [Hc [Hno _]].
  destruct (is_name_parts _ Hm) as [Hp [Hmc [_ [Hmb [_ [_ Hflush]]]]]].
  unfold tokenize_import_lines. cbn [all_line_tokens]. unfold line_tokens.
  change (words_of_line ("from " ++ module ++ " import " ++ joined_names names))
    with ("from" :: re_split_words false EmptyString
                      (module ++ " import " ++ joined_names names)).
  rewrite (re_split_words_plain _ _ _ Hp).
  change (re_split_words false (EmptyString ++ module)
            (" import " ++ joined_names names))
    with (flush module
            ("import" :: re_split_words false EmptyString (joined_names names))).
  rewrite Hflush, (words_of_joined_names _ H).
  change (reassociate 0 []
            ("from" :: module :: "import" :: comma_separated names))
    with (reassociate (Z.of_nat (List.length (@nil Token))) []
            ("from" :: module :: "import" :: comma_separated names)).
  rewrite reassociate_without_comments
    by (constructor; [reflexivity|constructor; [exact Hmc|]];
        constructor; [reflexivity|exact Hc]).
  cbn [bind app]. rewrite app_nil_r. unfold list_split.
  rewrite list_split_from_without
    by (intros [E|[E|[E|E]]];
        [discriminate|apply Hmb; exact E|discriminate|exact (Hno E)]).
  reflexivity.
Qed.

Lemma parse_statements_after_group
    (group : LineGroup) (groups : gen LineGroup)
    (statements : list ImportStatement) :
  parse_group group = Gen statements Returned ->
  parse_statements (yield group groups)
  = Gen (statements ++ yielded (parse_statements groups))
        (ended (parse_statements groups)).
Proof.
  intros H. unfold parse_statements, yield. cbn [yielded ended parse_groups].
  unfold and_then. rewrite H. reflexivity.
Qed.

Lemma import_statements_of_names (stems : list string) (numbers : list nat) :
  Forall (fun s => is_name s && negb (startswith s ".") = true) stems ->
  import_statements (map (fun n => [n]) stems) numbers
  = Gen (map (fun s => Statement numbers s [] []) stems) Returned.
Proof.
  induction stems as [|s stems IH]; intros H; [reflexivity|].
  inversion H as [|? ? Hs Hstems]; subst.
  apply andb_prop in Hs as [Hn Hd]. apply negb_true_iff in Hd.
  destruct (is_name_parts _ Hn) as [_ [Hc [_ [_ [_ [Hb _]]]]]].
  cbn [map import_statements]. unfold segment_statement, not_comment.
  cbn [filter]. rewrite Hc. cbn [negb bind].
  rewrite (parse_plain_stem s numbers [] Hb Hd).
  rewrite (IH Hstems). reflexivity.
Qed.

Lemma is_name_of_module (stems : list string) :
  Forall (fun s => is_name s && negb (startswith s ".") = true) stems ->
  Forall (fun s => is_name s = true) stems.
Proof.
  intros H. eapply Forall_impl; [|exact H].
  intros s Hs. apply andb_prop in Hs as [Hn _]. exact Hn.
Qed.

(** X17: a line [import a, b, c] -- the keyword, then names without blank,
    parenthesis, comma, backslash and [#], none empty or starting with a
    dot, with a comma and a blank between them -- that does not open a
    comment block is one group of the grouper, and it is parsed into one
    statement for each name, in the order of the names, each with the
    number of that line, without leaf and without comment; after them come
    the statements of the rest of the file. *)
Theorem import_line_gives_a_statement_for_each_name
    (number : nat) (stems : list string) (rest : iterator) :
  Forall (fun s => is_name s && negb (startswith s ".") = true) stems ->
  opens_comment_block ("import " ++ joined_names stems) = false ->
  find_imports_from_lines ((number, ("import " ++ joined_names stems)%string) :: rest)
  = yield ([("import " ++ joined_names stems)%string], [number])
          (find_imports_from_lines rest)
  /\ parse_group ([("import " ++ joined_names stems)%string], [number])
     = Gen (map (fun s => Statement [number] s [] []) stems) Returned
  /\ parse_statements
       (find_imports_from_lines
          ((number, ("import " ++ joined_names stems)%string) :: rest))
     = Gen (map (fun s => Statement [number] s [] []) stems
              ++ yielded (parse_statements (find_imports_from_lines rest)))
           (ended (parse_statements (find_imports_from_lines rest))).
Proof.
  intros Hstems Hblock.
  pose proof (is_name_of_module _ Hstems) as Hnames.
  assert (Hgroup : find_imports_from_lines
            ((number, ("import " ++ joined_names stems)%string) :: rest)
          = yield ([("import " ++ joined_names stems)%string], [number])
                  (find_imports_from_lines rest)).
  { unfold find_imports_from_lines.
    rewrite find_imports_rounds_round. cbn [one_round]. rewrite Hblock.
    unfold gather, has_import.
    replace (startswith ("import " ++ joined_names stems) "import ")
      with true by (symmetry; apply prefix_refl_append).
    rewrite orb_true_r. cbn [negb].
    rewrite (contains_without_char "(" EmptyString).
    2:{ rewrite has_char_append.
        rewrite (joined_names_without "(" stems eq_refl eq_refl eq_refl Hnames).
        reflexivity. }
    cbn [andb bind].
    rewrite (endswith_without_char "\").
    2:{ rewrite has_char_append.
        rewrite (joined_names_without "\" stems eq_refl eq_refl eq_refl Hnames).
        reflexivity. }
    reflexivity. }
  assert (Hparse : parse_group
            ([("import " ++ joined_names stems)%string], [number])
          = Gen (map (fun s => Statement [number] s [] []) stems) Returned).
  { unfold parse_group. rewrite (tokens_of_an_import_line _ Hnames).
    change (getitem ("import" :: comma_separated stems) 0) with (Ok "import").
    cbv beta iota. change (String.eqb "import" "import") with true.
    cbv iota. cbn [from1 tl].
    destruct (comma_separated_tokens stems Hnames) as [_ [_ ->]].
    apply (import_statements_of_names _ _ Hstems). }
  split; [exact Hgroup|]. split; [exact Hparse|].
  rewrite Hgroup. apply (parse_statements_after_group _ _ _ Hparse).
Qed.

(** The line [import os, sys.path] before the line [x = 1]. *)
Lemma import_line_os_sys_path :
  find_imports_from_lines
    [(1, ("import " ++ joined_names ["os"; "sys.path"])%string); (2, "x = 1")]
  = yield ([("import " ++ joined_names ["os"; "sys.path"])%string], [1])
          (find_imports_from_lines [(2, "x = 1")])
  /\ parse_group ([("import " ++ joined_names ["os"; "sys.path"])%string], [1])
     = Gen (map (fun s => Statement [1] s [] []) ["os"; "sys.path"]) Returned
  /\ parse_statements
       (find_imports_from_lines
          [(1, ("import " ++ joined_names ["os"; "sys.path"])%string);
           (2, "x = 1")])
     = Gen (map (fun s => Statement [1] s [] []) ["os"; "sys.path"]
              ++ yielded (parse_statements
                            (find_imports_from_lines [(2, "x = 1")])))
           (ended (parse_statements (find_imports_from_lines [(2, "x = 1")]))).
Proof.
  apply (import_line_gives_a_statement_for_each_name
           1 ["os"; "sys.path"] [(2, "x = 1")]);
    [repeat constructor|reflexivity].
Defined.

Lemma parse_leafs_of_names (names : list string) :
  Forall (fun s => is_name s = true) names ->
  parse_leafs (map (fun n => [n]) names)
  = Ok (map (fun n => Leaf n None []) names).
Proof.
  induction names as [|n names IH]; intros H; [reflexivity|].
  inversion H as [|? ? Hn Hnames]; subst.
  destruct (is_name_parts _ Hn) as [_ [Hc _]].
  cbn [map parse_leafs]. unfold not_comment. cbn [filter]. rewrite Hc.
  cbn [negb bind]. rewrite (IH Hnames). cbn [bind].
  rewrite (make_leaf_of_name _ _ Hn). reflexivity.
Qed.

(** X18: a line [from m import a, b, c] -- the module and the names
    without blank, parenthesis, comma, backslash and [#], none empty and
    none the word [import], at least one name -- that does not open a
    comment block is one group of the grouper, and it is parsed into one
    statement with the module as its stem (leading dots included), one
    leaf for each name in the order of the names, no alias and no
    comment, and the number of that line; after it come the statements of
    the rest of the file. *)
Theorem from_line_gives_one_statement
    (number : nat) (module : string) (names : list string) (rest : iterator) :
  is_name module = true -> module <> "import" ->
  names <> [] ->
  Forall (fun s => is_name s = true) names -> ~ In "import" names ->
  opens_comment_block
    ("from " ++ module ++ " import " ++ joined_names names) = false ->
  find_imports_from_lines
    ((number, ("from " ++ module ++ " import " ++ joined_names names)%string)
       :: rest)
  = yield ([("from " ++ module ++ " import " ++ joined_names names)%string],
           [number])
          (find_imports_from_lines rest)
  /\ parse_group
       ([("from " ++ module ++ " import " ++ joined_names names)%string],
        [number])
     = Gen [Statement [number] module
              (map (fun n => Leaf n None []) names) []]
           Returned
  /\ parse_statements
       (find_imports_from_lines
          ((number,
            ("from " ++ module ++ " import " ++ joined_names names)%string)
             :: rest))
     = Gen (Statement [number] module (map (fun n => Leaf n None []) names) []
              :: yielded (parse_statements (find_imports_from_lines rest)))
           (ended (parse_statements (find_imports_from_lines rest))).
Proof.
  intros Hm Hmi Hne Hnames Hni Hblock.
  destruct (is_name_parts _ Hm) as [Hp [Hmc _]].
  assert (Hgroup : find_imports_from_lines
            ((number,
              ("from " ++ module ++ " import " ++ joined_names names)%string)
               :: rest)
          = yield ([("from " ++ module ++ " import "
                      ++ joined_names names)%string], [number])
                  (find_imports_from_lines rest)).
  { unfold find_imports_from_lines.
    rewrite find_imports_rounds_round. cbn [one_round]. rewrite Hblock.
    unfold gather, has_import.
    replace (startswith ("from " ++ module ++ " import " ++ joined_names names)
               "from ")
      with true by (symmetry; apply prefix_refl_append).
    cbn [orb negb].
    rewrite (contains_without_char "(" EmptyString).
    2:{ rewrite !has_char_append.
        rewrite (plain_without_special "(" module eq_refl Hp).
        rewrite (joined_names_without "(" names eq_refl eq_refl eq_refl Hnames).
        reflexivity. }
    cbn [andb bind].
    rewrite (endswith_without_char "\").
    2:{ rewrite !has_char_append.
        rewrite (plain_without_special "\" module eq_refl Hp).
        rewrite (joined_names_without "\" names eq_refl eq_refl eq_refl Hnames).
        reflexivity. }
    reflexivity. }
  assert (Hparse : parse_group
            ([("from " ++ module ++ " import " ++ joined_names names)%string],
             [number])
          = Gen [Statement [number] module
                   (map (fun n => Leaf n None []) names) []]
                Returned).
  { unfold parse_group. rewrite (tokens_of_a_from_line _ _ Hm Hnames).
    change (getitem ("from" :: module :: "import" :: comma_separated names) 0)
      with (Ok "from").
    cbv beta iota. change (String.eqb "from" "import") with false.
    cbv iota. unfold from_statement. cbn [from1 tl].
    destruct (comma_separated_tokens names Hnames) as [_ [_ Hsplit]].
    assert (Hcs : ~ In "import" (comma_separated names)).
    { clear - Hni. induction names as [|n names IH]; [intros []|].
      cbn [comma_separated]. destruct names as [|n' names].
      - intros [E|[]]. apply Hni. left. exact E.
      - intros [E|[E|E]]; [apply Hni; left; exact E|discriminate|].
        apply IH; [|exact E]. intros H. apply Hni. right. exact H. }
    unfold list_split. cbn [list_split_from].
    destruct (String.eqb_spec module "import") as [E|_]; [contradiction|].
    cbn [app String.eqb Ascii.eqb Bool.eqb].
    rewrite (list_split_from_without _ _ _ Hcs). cbn [app].
    assert (Hc : comma_separated names <> []).
    { destruct names as [|n [|n' names]]; [contradiction|discriminate..]. }
    destruct (comma_separated names) as [|t ts] eqn:Ecs; [contradiction|].
    unfold not_comment. cbn [filter]. rewrite Hmc. cbn [negb bind].
    unfold list_split in Hsplit. rewrite Hsplit.
    rewrite (parse_leafs_of_names _ Hnames). reflexivity. }
  split; [exact Hgroup|]. split; [exact Hparse|].
  rewrite Hgroup. apply (parse_statements_after_group _ _ _ Hparse).
Qed.

(** The line [from ..pkg import a, b] at the end of a file. *)
Lemma from_line_pkg_a_b :
  find_imports_from_lines
    [(7, ("from " ++ "..pkg" ++ " import " ++ joined_names ["a"; "b"])%string)]
  = yield ([("from " ++ "..pkg" ++ " import " ++ joined_names ["a"; "b"])%string],
           [7])
          (find_imports_from_lines [])
  /\ parse_group
       ([("from " ++ "..pkg" ++ " import " ++ joined_names ["a"; "b"])%string],
        [7])
     = Gen [Statement [7] "..pkg" (map (fun n => Leaf n None []) ["a"; "b"]) []]
           Returned
  /\ parse_statements
       (find_imports_from_lines
          [(7, ("from " ++ "..pkg" ++ " import "
                  ++ joined_names ["a"; "b"])%string)])
     = Gen (Statement [7] "..pkg" (map (fun n => Leaf n None []) ["a"; "b"]) []
              :: yielded (parse_statements (find_imports_from_lines [])))
           (ended (parse_statements (find_imports_from_lines []))).
Proof.
  apply (from_line_gives_one_statement 7 "..pkg" ["a"; "b"] []);
    try solve [reflexivity | discriminate | repeat constructor].
  simpl. intros H. repeat destruct H as [H|H]; try discriminate. exact H.
Defined.

Lemma tokens_of_a_line_without_comment
    (line : string) (first : Token) (others : list Token) :
  words_of_line line = first :: others ->
  Forall (fun w => is_comment w = false) (first :: others) ->
  ~ In "\" (first :: others) ->
  tokenize_import_lines [line] = Ok (first :: others).
Proof.
  intros Hw Hc Hno.
  unfold tokenize_import_lines. cbn [all_line_tokens]. unfold line_tokens.
  rewrite Hw.
  change (reassociate 0 [] (first :: others))
    with (reassociate (Z.of_nat (List.length (@nil Token))) []
            (first :: others)).
  rewrite (reassociate_without_comments _ _ Hc).
  cbn [bind app]. rewrite app_nil_r. unfold list_split.
  rewrite (list_split_from_without _ _ _ Hno). reflexivity.
Qed.

(** X21: only the first token of a segment that is not a comment is read.
    For the line [import a as b] -- two names without blank, parenthesis,
    comma, backslash and [#], the first one not starting with a dot -- the
    statement has the stem [a] alone, without leaf: the alias is not kept.
    For the line [from m import a as b] the statement has the one leaf [a]
    without alias. *)
Theorem alias_is_not_kept
    (module name alias : string) (numbers : list nat) :
  is_name module = true -> is_name name = true -> is_name alias = true ->
  module <> "import" -> name <> "import" -> alias <> "import" ->
  startswith name "." = false ->
  tokenize_import_lines [("import " ++ name ++ " as " ++ alias)%string]
    = Ok ["import"; name; "as"; alias]
  /\ parse_group ([("import " ++ name ++ " as " ++ alias)%string], numbers)
     = Gen [Statement numbers name [] []] Returned
  /\ parse_group
       ([("from " ++ module ++ " import " ++ name ++ " as " ++ alias)%string],
        numbers)
     = Gen [Statement numbers module [Leaf name None []] []] Returned.
Proof.
  intros Hm Hn Ha Hmi Hni Hai Hdot.
  destruct (is_name_parts _ Hm) as [Hmp [Hmc [_ [Hmb [_ [_ Hmf]]]]]].
  destruct (is_name_parts _ Hn) as [Hnp [Hnc [Hncomma [Hnb [_ [Hblank Hnf]]]]]].
  destruct (is_name_parts _ Ha) as [Hap [Hac [Hacomma [Hab [_ [_ Haf]]]]]].
  assert (Hwords : re_split_words false EmptyString (name ++ " as " ++ alias)
                   = [name; "as"; alias]).
  { rewrite (re_split_words_plain _ _ _ Hnp).
    change (re_split_words false (EmptyString ++ name) (" as " ++ alias))
      with (flush name
              ("as" :: re_split_words false EmptyString alias)).
    rewrite Hnf. rewrite <- (append_empty_r alias) at 1.
    rewrite (re_split_words_plain _ _ _ Hap). cbn [append re_split_words].
    rewrite Haf. reflexivity. }
  assert (Htok : tokenize_import_lines
                   [("import " ++ name ++ " as " ++ alias)%string]
                 = Ok ["import"; name; "as"; alias]).
  { apply tokens_of_a_line_without_comment.
    - change (words_of_line ("import " ++ name ++ " as " ++ alias))
        with ("import" :: re_split_words false EmptyString
                            (name ++ " as " ++ alias)).
      rewrite Hwords. reflexivity.
    - repeat constructor; assumption.
    - intros [E|[E|[E|[E|[]]]]];
        [discriminate|exact (Hnb E)|discriminate|exact (Hab E)]. }
  assert (Hfrom : tokenize_import_lines
                    [("from " ++ module ++ " import " ++ name ++ " as "
                        ++ alias)%string]
                  = Ok ["from"; module; "import"; name; "as"; alias]).
  { apply tokens_of_a_line_without_comment.
    - change (words_of_line
                ("from " ++ module ++ " import " ++ name ++ " as " ++ alias))
        with ("from" :: re_split_words false EmptyString
                          (module ++ " import " ++ name ++ " as " ++ alias)).
      rewrite (re_split_words_plain _ _ _ Hmp).
      change (re_split_words false (EmptyString ++ module)
                (" import " ++ name ++ " as " ++ alias))
        with (flush module
                ("import" :: re_split_words false EmptyString
                                (name ++ " as " ++ alias))).
      rewrite Hmf, Hwords. reflexivity.
    - repeat constructor; assumption.
    - intros [E|[E|[E|[E|[E|[E|[]]]]]]];
        [discriminate|exact (Hmb E)|discriminate|exact (Hnb E)
        |discriminate|exact (Hab E)]. }
  split; [exact Htok|]. split.
  - unfold parse_group. rewrite Htok.
    change (getitem ["import"; name; "as"; alias] 0) with (Ok "import").
    cbv beta iota. change (String.eqb "import" "import") with true.
    cbv iota. cbn [from1 tl]. unfold list_split.
    rewrite list_split_from_without
      by (intros [E|[E|[E|[]]]];
          [exact (Hncomma E)|discriminate|exact (Hacomma E)]).
    cbn [app import_statements]. unfold segment_statement, not_comment.
    cbn [filter]. rewrite Hnc, Hac.
    change (is_comment "as") with false. cbn [negb bind filter].
    rewrite (parse_plain_stem name numbers [] Hblank Hdot).
    reflexivity.
  - unfold parse_group. rewrite Hfrom.
    change (getitem ["from"; module; "import"; name; "as"; alias] 0)
      with (Ok "from").
    cbv beta iota. change (String.eqb "from" "import") with false.
    cbv iota. unfold from_statement. cbn [from1 tl].
    change (list_split [module; "import"; name; "as"; alias] "import")
      with (list_split_from [] ([module] ++ "import" :: [name; "as"; alias])
              "import").
    rewrite list_split_from_at by (intros [E|[]]; exact (Hmi E)).
    rewrite list_split_from_without
      by (intros [E|[E|[E|[]]]];
          [exact (Hni E)|discriminate|exact (Hai E)]).
    cbn [app]. unfold not_comment at 1. cbn [filter]. rewrite Hmc.
    cbn [negb bind]. unfold list_split.
    rewrite list_split_from_without
      by (intros [E|[E|[E|[]]]];
          [exact (Hncomma E)|discriminate|exact (Hacomma E)]).
    cbn [app parse_leafs]. unfold not_comment. cbn [filter].
    rewrite Hnc, Hac. change (is_comment "as") with false.
    cbn [negb bind filter]. rewrite (make_leaf_of_name _ _ Hn). reflexivity.
Qed.

(** The lines [import numpy as np] and [from os import numpy as np]. *)
Lemma alias_of_numpy_is_not_kept :
  tokenize_import_lines [("import " ++ "numpy" ++ " as " ++ "np")%string]
    = Ok ["import"; "numpy"; "as"; "np"]
  /\ parse_group ([("import " ++ "numpy" ++ " as " ++ "np")%string], [1])
     = Gen [Statement [1] "numpy" [] []] Returned
  /\ parse_group
       ([("from " ++ "os" ++ " import " ++ "numpy" ++ " as " ++ "np")%string],
        [1])
     = Gen [Statement [1] "os" [Leaf "numpy" None []] []] Returned.
Proof.
  apply (alias_is_not_kept "os" "numpy" "np" [1]);
    solve [reflexivity | discriminate].
Defined.

(** * The artifacts of a file *)

Lemma splitlines_from_one_line (first line rest : string) :
  one_line first = true ->
  splitlines_from line (first ++ rest)
  = splitlines_from (line ++ first) rest.
Proof.
  revert line. induction first as [|c first IH]; intros line H.
  - rewrite append_empty_r. reflexivity.
  - cbn [one_line] in H. apply andb_prop in H as [Hc Hf].
    apply negb_true_iff in Hc.
    change (String c first ++ rest)%string with (String c (first ++ rest)).
    cbn [splitlines_from].
    assert (Hcr : Ascii.eqb c carriage_return = false).
    { unfold is_line_boundary in Hc.
      repeat (apply orb_false_elim in Hc as [Hc ?]). assumption. }
    rewrite Hcr, Hc, (IH _ Hf), append_assoc. reflexivity.
Qed.

Lemma splitlines_from_more (line text : string) :
  text <> EmptyString -> splitlines_from line text <> [].
Proof.
  revert line. induction text as [|c text IH]; intros line H;
    [contradiction|].
  cbn [splitlines_from]. destruct (Ascii.eqb c carriage_return).
  - destruct text as [|c' text]; [discriminate|].
    destruct (Ascii.eqb c' newline); discriminate.
  - destruct (is_line_boundary c); [discriminate|].
    destruct text as [|c' text]; [|apply IH; discriminate].
    cbn [splitlines_from]. destruct (line ++ String c EmptyString)%string eqn:E;
      [|discriminate].
    destruct line; discriminate.
Qed.

Lemma substring_holds_char (c : ascii) (t s : string) (n m : nat) :
  substring n m s = String c t -> has_char c s = true.
Proof.
  revert n m. induction s as [|a s IH]; intros n m H.
  - destruct n, m; discriminate.
  - destruct n as [|n]; cbn [substring] in H.
    + destruct m as [|m]; [discriminate|]. injection H as -> _.
      cbn [has_char]. rewrite Ascii.eqb_refl. reflexivity.
    + cbn [has_char]. rewrite (IH _ _ H). apply orb_true_r.
Qed.

Lemma substring_at_end (a b : string) :
  substring (String.length a) (String.length b) (a ++ b) = b.
Proof.
  induction a as [|c a IH]; cbn [String.length append substring].
  - induction b as [|c b IHb]; cbn; [reflexivity|]. rewrite IHb. reflexivity.
  - exact IH.
Qed.

Lemma length_of_append (a b : string) :
  String.length (a ++ b) = (String.length a + String.length b)%nat.
Proof. induction a as [|c a IH]; cbn; [reflexivity|]. rewrite IH. reflexivity. Qed.

Lemma last_two_of_crlf (line : string) : last_two (line ++ CRLF) = CRLF.
Proof.
  unfold last_two. rewrite length_of_append.
  replace (String.length line + String.length CRLF - 2)%nat
    with (String.length line) by (cbn; lia).
  apply (substring_at_end line CRLF).
Qed.

Lemma one_line_without_return (s : string) :
  one_line s = true -> has_char carriage_return s = false.
Proof.
  induction s as [|c s IH]; intros H; [reflexivity|].
  cbn [one_line] in H. apply andb_prop in H as [Hc Hs].
  apply negb_true_iff in Hc. unfold is_line_boundary in Hc.
  repeat (apply orb_false_elim in Hc as [Hc ?]).
  cbn [has_char]. rewrite (IH Hs), orb_false_r. assumption.
Qed.

(** X20: what [get_file_artifacts] says about the line ends of a file
    whose first line is [first] (a text without line end).  When the first
    line ends in carriage return and line feed and something follows it,
    the separator is these two characters.  When the file is that one
    line only, the separator is the line feed, although the line ends in
    carriage return and line feed.  When the first line ends in a line feed
    alone, the separator is the line feed, whatever the line ends of the
    rest are. *)
Theorem separator_is_read_from_the_first_of_several_lines (first : string) :
  one_line first = true ->
  (forall rest, rest <> EmptyString ->
      get_file_artifacts (first ++ CRLF ++ rest) = [("sep", CRLF)])
  /\ get_file_artifacts (first ++ CRLF) = [("sep", LF)]
  /\ (forall rest, get_file_artifacts (first ++ LF ++ rest) = [("sep", LF)]).
Proof.
  intros H. unfold get_file_artifacts, splitlines_keepends. cbv zeta.
  split; [|split].
  - intros rest Hrest.
    rewrite (splitlines_from_one_line _ _ _ H). cbn [append].
    change (CRLF ++ rest)%string
      with (String carriage_return (String newline rest)).
    cbn [splitlines_from].
    change (Ascii.eqb carriage_return carriage_return) with true.
    change (Ascii.eqb newline newline) with true. cbv iota.
    pose proof (splitlines_from_more EmptyString rest Hrest) as M.
    destruct (splitlines_from EmptyString rest) as [|l ls]; [contradiction|].
    change (first ++ String carriage_return (String newline EmptyString))%string
      with (first ++ CRLF)%string.
    rewrite last_two_of_crlf, String.eqb_refl. reflexivity.
  - rewrite (splitlines_from_one_line _ _ _ H). reflexivity.
  - intros rest.
    rewrite (splitlines_from_one_line _ _ _ H). cbn [append].
    change (LF ++ rest)%string with (String newline rest).
    cbn [splitlines_from].
    change (Ascii.eqb newline carriage_return) with false.
    change (is_line_boundary newline) with true. cbv iota.
    destruct (splitlines_from EmptyString rest) as [|l ls]; [reflexivity|].
    destruct (String.eqb_spec
                (last_two (first ++ String newline EmptyString)) CRLF)
      as [E|_]; [|reflexivity].
    exfalso. unfold last_two, CRLF in E.
    apply substring_holds_char in E.
    rewrite has_char_append, (one_line_without_return _ H) in E.
    discriminate.
Qed.

(** A file whose first line is [import os]. *)
Lemma separator_of_import_os :
  (forall rest, rest <> EmptyString ->
      get_file_artifacts ("import os" ++ CRLF ++ rest) = [("sep", CRLF)])
  /\ get_file_artifacts ("import os" ++ CRLF) = [("sep", LF)]
  /\ (forall rest, get_file_artifacts ("import os" ++ LF ++ rest) = [("sep", LF)]).
Proof.
  apply (separator_is_read_from_the_first_of_several_lines "import os").
  reflexivity.
Defined.
